(** * mygrate: the binlog follower, its row-event parser, the callback
      registry and the configuration provider

    A shallow embedding of [mygrate/binlog.py], [mygrate/callbacks.py],
    [mygrate/config.py] and [mygrate/query.py], followed by the properties
    of the design document that were checked against it.

    Python dictionaries are finite maps ([gmap]), Python exceptions are the
    [Raise] case of a small error monad, and the objects the code mutates
    (the current query, the task queue, the position file) are threaded as
    explicit state. *)

From stdpp Require Import gmap strings list fin_maps.
From Stdlib Require Import ZArith Ascii String DecimalString.
From Equations Require Import Equations.

Local Open Scope string_scope.
Local Open Scope Z_scope.

(* String concatenation computes on literals, as the other string
   functions of this file do. *)
#[local] Arguments String.append !_ _ / : simpl nomatch.

(* ===================================================================== *)
(** * Part I: definitions                                                *)
(* ===================================================================== *)

(** ** Python byte strings ([str] of Python 2) *)

Module PyString.

Definition newline : ascii := Ascii.ascii_of_nat 10.
Definition carriage_return : ascii := Ascii.ascii_of_nat 13.

(** The characters [str.rstrip()] removes when called without argument:
    space, tab, line feed, vertical tab, form feed, carriage return. *)
Definition is_whitespace (c : ascii) : bool :=
  let n := Ascii.nat_of_ascii c in
  (Nat.eqb n 32 || Nat.eqb n 9 || Nat.eqb n 10 ||
   Nat.eqb n 11 || Nat.eqb n 12 || Nat.eqb n 13)%bool.

Definition is_digit (c : ascii) : bool :=
  let n := Ascii.nat_of_ascii c in (Nat.leb 48 n && Nat.leb n 57)%bool.

Definition is_crlf (c : ascii) : bool :=
  (Ascii.eqb c carriage_return || Ascii.eqb c newline)%bool.

Definition is_backtick (c : ascii) : bool := Ascii.eqb c "`"%char.

(** [s.startswith(p)] *)
Fixpoint startswith (p s : string) : bool :=
  match p, s with
  | EmptyString, _ => true
  | String a p', String b s' => (Ascii.eqb a b && startswith p' s')%bool
  | String _ _, EmptyString => false
  end.

(** [s[n:]] for a non-negative [n] *)
Fixpoint drop (n : nat) (s : string) : string :=
  match n, s with
  | O, _ => s
  | S n', String _ s' => drop n' s'
  | S _, EmptyString => EmptyString
  end.

(** [s.lstrip(chars)], the set of characters given as a predicate *)
Fixpoint lstrip (strip : ascii -> bool) (s : string) : string :=
  match s with
  | String c s' => if strip c then lstrip strip s' else s
  | EmptyString => EmptyString
  end.

(** [s.rstrip(chars)] *)
Fixpoint rstrip (strip : ascii -> bool) (s : string) : string :=
  match s with
  | String c s' =>
      match rstrip strip s' with
      | EmptyString => if strip c then EmptyString else String c EmptyString
      | r => String c r
      end
  | EmptyString => EmptyString
  end.

(** [s.strip(chars)] *)
Definition strip (f : ascii -> bool) (s : string) : string :=
  rstrip f (lstrip f s).

(** [s.partition(' ')]: the part before the first space, the separator
    found (empty when there is none) and the part after it. *)
Fixpoint partition_space (s : string) : string * string * string :=
  match s with
  | EmptyString => (EmptyString, EmptyString, EmptyString)
  | String c s' =>
      if Ascii.eqb c " "%char then (EmptyString, " ", s')
      else let '(before, sep, after) := partition_space s' in
           (String c before, sep, after)
  end.

(** [s.split('.')] *)
Fixpoint split_dot (s : string) : list string :=
  match s with
  | EmptyString => [EmptyString]
  | String c s' =>
      if Ascii.eqb c "."%char then EmptyString :: split_dot s'
      else match split_dot s' with
           | w :: ws => String c w :: ws
           | [] => [String c EmptyString]
           end
  end.

(** ['.'.join(l)] *)
Definition join_dot (l : list string) : string := String.concat "." l.

(** The longest prefix of characters satisfying [p], and the rest. *)
Fixpoint span (p : ascii -> bool) (s : string) : string * string :=
  match s with
  | String c s' =>
      if p c then let '(a, b) := span p s' in (String c a, b)
      else (EmptyString, s)
  | EmptyString => (EmptyString, EmptyString)
  end.

(** The tail of the three header patterns and of the column pattern, a
    greedy any-character group followed by the end anchor, matched by
    Python's [re] against what is left of the subject: the dot is any
    character but a line feed, and the end anchor matches at the end of
    the subject or just before a line feed that ends it.  Returns the
    captured group. *)
Definition match_rest (s : string) : option string :=
  let '(body, rest) := span (fun c => negb (Ascii.eqb c newline)) s in
  if decide (rest = EmptyString) then Some body
  else if decide (rest = String newline EmptyString) then Some body
  else None.

(** [_initial_pattern.match(s)], the pattern being a literal [prefix]
    anchored at the start and followed by the tail above: the captured
    group when the subject matches. *)
Definition match_header (prefix s : string) : option string :=
  if startswith prefix s then match_rest (drop (String.length prefix) s)
  else None.

(** [_column_pattern.match(s)]: two spaces, an at sign, one or more
    decimal digits (the first group), an equals sign and the tail above
    (the second group). *)
Definition match_column (s : string) : option (string * string) :=
  if startswith "  @" s then
    let '(digits, rest) := span is_digit (drop 3 s) in
    match digits, rest with
    | String _ _, String c value =>
        if Ascii.eqb c "="%char then
          match match_rest value with
          | Some v => Some (digits, v)
          | None => None
          end
        else None
    | _, _ => None
    end
  else None.

End PyString.

(** ** Python values, exceptions and the error monad *)

Inductive PyValue : Type :=
| PyNone
| PyBool (b : bool)
| PyInt (n : Z)
| PyFloat (literal : string)     (* a float, kept as the literal it was read from *)
| PyStr (bytes : string)         (* Python 2 [str]: a byte string *)
| PyUnicode (text : string)      (* Python 2 [unicode] *)
| PyContainer (literal : string) (* tuple, list or dict literal *).

Inductive PyExc : Type :=
| KeyError
| IndexError
| IOError (errno : Z)
| UnicodeDecodeError
| LookupError
| NoSectionError
| NoOptionError
| ValueError
| MygrateConfigError (message : string)
| OtherException (name : string)
| KeyboardInterrupt
| SystemExit.

(** [isinstance(e, Exception)]: what an [except Exception] clause catches. *)
Definition is_Exception (e : PyExc) : bool :=
  match e with
  | KeyboardInterrupt | SystemExit => false
  | _ => true
  end.

Inductive Result (A : Type) : Type :=
| Ok (a : A)
| Raise (e : PyExc).
Arguments Ok {A} a.
Arguments Raise {A} e.

#[global] Instance Result_ret : MRet Result := fun A a => Ok a.
#[global] Instance Result_bind : MBind Result := fun A B f m =>
  match m with
  | Ok a => f a
  | Raise e => Raise e
  end.
#[global] Instance Result_fmap : FMap Result := fun A B f m =>
  match m with
  | Ok a => Ok (f a)
  | Raise e => Raise e
  end.

(** The two library functions the value decoder calls: [ast.literal_eval]
    ([None] when it raises: every exception it raises is caught by the
    decoder) and [str.decode(charset)]. *)
Class PyRuntime : Type := {
  literal_eval : string -> option PyValue;
  str_decode : string -> string -> Result string
}.

(** Truth value of [char_set], which is [None] or a string. *)
Definition truthy (char_set : option string) : bool :=
  match char_set with
  | Some (String _ _) => true
  | _ => false
  end.

(** ** [binlog.py]: [QueryBase] and its three subclasses *)

Inductive QueryType : Type := INSERT | UPDATE | DELETE.

(** The attributes of a query object.  [values] is the dictionary
    [{'WHERE': [], 'SET': []}] of positional lists, [current_value_type]
    the key of the list being filled ([None] at construction). *)
Record Query : Type := {
  type : QueryType;
  table : option string;
  invalid : bool;
  current_value_type : option string;
  values : gmap string (list PyValue)
}.

(** What the parser reads but never writes: the registered tables
    ([callbacks], table to module reference), the column-name vector of each
    table and the character set of each table ([None] for a table without
    one). *)
Record Tables : Type := {
  callbacks : gmap string string;
  column_names : gmap string (list string);
  char_sets : gmap string (option string)
}.

(** A job published on the task queue: [tasks.INSERT.delay(table, set)],
    [tasks.UPDATE.delay(table, where, set)], [tasks.DELETE.delay(table,
    where)]. *)
Inductive Event : Type :=
| Insert (table : string) (set_vals : gmap string PyValue)
| Update (table : string) (where_vals set_vals : gmap string PyValue)
| Delete (table : string) (where_vals : gmap string PyValue).

Module QueryBase.

Definition _initial_pattern (t : QueryType) : string :=
  match t with
  | INSERT => "INSERT INTO "
  | UPDATE => "UPDATE "
  | DELETE => "DELETE FROM "
  end.

Definition set_table (q : Query) (t : option string) : Query :=
  {| type := type q; table := t; invalid := invalid q;
     current_value_type := current_value_type q; values := values q |}.

Definition set_invalid (q : Query) (b : bool) : Query :=
  {| type := type q; table := table q; invalid := b;
     current_value_type := current_value_type q; values := values q |}.

Definition set_current_value_type (q : Query) (k : option string) : Query :=
  {| type := type q; table := table q; invalid := invalid q;
     current_value_type := k; values := values q |}.

Definition set_values (q : Query) (v : gmap string (list PyValue)) : Query :=
  {| type := type q; table := table q; invalid := invalid q;
     current_value_type := current_value_type q; values := v |}.

Definition _parse_initial_line (q : Query) (line : string) : Query :=
  match PyString.match_header (_initial_pattern (type q)) line with
  | None => set_invalid q true
  | Some group1 =>
      let identifiers :=
        map (PyString.strip PyString.is_backtick) (PyString.split_dot group1) in
      set_table q (Some (PyString.join_dot identifiers))
  end.

(** [__init__], for the subclass [t] *)
Definition init (t : QueryType) (line : string) : Query :=
  _parse_initial_line
    {| type := t; table := None; invalid := false;
       current_value_type := None;
       values := <["WHERE" := []]> (<["SET" := []]> ∅) |}
    line.

(** Remembering the equation of a scrutinee in a [with] clause. *)
Definition inspect {A : Type} (a : A) : {b : A | a = b} := exist _ a eq_refl.

Lemma partition_space_shorter (value before sep after : string) :
  PyString.partition_space value = (before, sep, after) ->
  sep = " " ->
  (String.length before < String.length value)%nat.
Proof.
  revert before sep after.
  induction value as [|c value IH]; intros before sep after; simpl.
  - intros [= <- <- <-]. discriminate.
  - destruct (Ascii.eqb c " ").
    + intros [= <- <- <-] _. simpl. lia.
    + destruct (PyString.partition_space value) as [[b s] a] eqn:E.
      intros [= <- <- <-] Hs. simpl.
      specialize (IH b s a eq_refl Hs). lia.
Qed.

Section Decoder.
Context `{PyRuntime}.

(** The [else] branch of the [try]: the literal was read. *)
Definition decode_literal (literal : PyValue) (char_set : option string)
  : Result PyValue :=
  match char_set, literal with
  | Some cs, PyStr bytes =>
      if truthy char_set
      then text ← str_decode cs bytes; mret (PyUnicode text)
      else mret literal
  | _, _ => mret literal
  end.

Equations? _parse_value (value : string) (char_set : option string)
  : Result PyValue by wf (String.length value) lt :=
  _parse_value value char_set with literal_eval value => {
    | Some literal => decode_literal literal char_set
    | None with inspect (PyString.partition_space value) => {
        | exist _ (before_space, sep, after_space) Hpart
            with inspect (String.eqb sep " ") => {
            | exist _ true Hsep => _parse_value before_space char_set
            | exist _ false _ => mret PyNone } } }.
Proof.
  apply String.eqb_eq in Hsep.
  eapply partition_space_shorter; eauto.
Qed.

(** [dict[key]] for a key that may be [None]: no dictionary of the
    program has [None] among its keys. *)
Definition getitem {A : Type} (d : gmap string A) (key : option string)
  : Result A :=
  match key with
  | Some k => match d !! k with
              | Some a => Ok a
              | None => Raise KeyError
              end
  | None => Raise KeyError
  end.

(** [self.char_sets.get(self.table)] *)
Definition get_char_set (tb : Tables) (t : option string) : option string :=
  match t with
  | Some k => match char_sets tb !! k with
              | Some cs => cs
              | None => None
              end
  | None => None
  end.

(** [parse(line)] of a query object.  When it raises, the object has not
    been modified. *)
Definition parse (tb : Tables) (q : Query) (line : string) : Result Query :=
  if decide (line = "SET" \/ line = "WHERE") then
    mret (set_current_value_type q (Some line))
  else
    match PyString.match_column line with
    | None => mret (set_invalid q true)
    | Some (_, group2) =>
        let char_set := get_char_set tb (table q) in
        col_value ← _parse_value group2 char_set;
        l ← getitem (values q) (current_value_type q);
        match current_value_type q with
        | Some k => mret (set_values q (<[k := (l ++ [col_value])%list]> (values q)))
        | None => Raise KeyError
        end
    end.

(** The loop shared by the three [finish] methods:
    [for i, val in enumerate(vals): d[names[i]] = val], from index [i]. *)
Fixpoint translate_from (names : list string) (i : nat)
  (vals : list PyValue) (d : gmap string PyValue)
  : Result (gmap string PyValue) :=
  match vals with
  | [] => Ok d
  | val :: rest =>
      match names !! i with
      | Some key => translate_from names (S i) rest (<[key := val]> d)
      | None => Raise IndexError
      end
  end.

Definition translate (names : list string) (vals : list PyValue)
  : Result (gmap string PyValue) :=
  translate_from names 0 vals ∅.

End Decoder.

End QueryBase.

Module InsertQuery.

(** The job [finish] publishes, or the exception it raises before
    publishing anything. *)
Definition finish (tb : Tables) (q : Query) : Result Event :=
  table_column_names ← QueryBase.getitem (column_names tb) (table q);
  set_list ← QueryBase.getitem (values q) (Some "SET");
  set_vals ← QueryBase.translate table_column_names set_list;
  match table q with
  | Some t => mret (Insert t set_vals)
  | None => Raise KeyError
  end.

End InsertQuery.

Module UpdateQuery.

Definition finish (tb : Tables) (q : Query) : Result Event :=
  table_column_names ← QueryBase.getitem (column_names tb) (table q);
  where_list ← QueryBase.getitem (values q) (Some "WHERE");
  where_vals ← QueryBase.translate table_column_names where_list;
  set_list ← QueryBase.getitem (values q) (Some "SET");
  set_vals ← QueryBase.translate table_column_names set_list;
  match table q with
  | Some t => mret (Update t where_vals set_vals)
  | None => Raise KeyError
  end.

End UpdateQuery.

Module DeleteQuery.

Definition finish (tb : Tables) (q : Query) : Result Event :=
  table_column_names ← QueryBase.getitem (column_names tb) (table q);
  where_list ← QueryBase.getitem (values q) (Some "WHERE");
  where_vals ← QueryBase.translate table_column_names where_list;
  match table q with
  | Some t => mret (Delete t where_vals)
  | None => Raise KeyError
  end.

End DeleteQuery.

(** ** [binlog.py]: [QueryParser] *)

(** The parser's only mutable attribute, [current], together with the jobs
    published so far on the task queue, oldest first. *)
Record ParserState : Type := {
  current : option Query;
  published : list Event
}.

Module QueryParser.

(** [__init__]: no current query; nothing has been published. *)
Definition init : ParserState := {| current := None; published := [] |}.

(** [self.current.finish()], dispatched on the class of the query. *)
Definition query_finish (tb : Tables) (q : Query) : Result Event :=
  match type q with
  | INSERT => InsertQuery.finish tb q
  | UPDATE => UpdateQuery.finish tb q
  | DELETE => DeleteQuery.finish tb q
  end.

Definition _handle_completion (tb : Tables) (st : ParserState)
  : Result ParserState :=
  match current st with
  | Some q =>
      ev ← query_finish tb q;
      mret {| current := current st; published := (published st ++ [ev])%list |}
  | None => mret st
  end.

(** [query.table in self.callbacks] *)
Definition in_callbacks (tb : Tables) (t : option string) : bool :=
  match t with
  | Some k => bool_decide (is_Some (callbacks tb !! k))
  | None => false
  end.

(** One of the three header branches of [parse], for the class [t]. *)
Definition start `{PyRuntime} (t : QueryType) (tb : Tables)
  (st : ParserState) (line : string) : Result ParserState :=
  st' ← _handle_completion tb st;
  let query := QueryBase.init t line in
  mret {| current := if in_callbacks tb (table query) then Some query else None;
          published := published st' |}.

(** [parse(line)], the [feed] of the design document.  When it raises, the
    parser has not been modified and nothing has been published. *)
Definition parse `{PyRuntime} (tb : Tables) (st : ParserState)
  (line : string) : Result ParserState :=
  if PyString.startswith "INSERT" line then start INSERT tb st line
  else if PyString.startswith "UPDATE" line then start UPDATE tb st line
  else if PyString.startswith "DELETE" line then start DELETE tb st line
  else match current st with
       | Some q =>
           q' ← QueryBase.parse tb q line;
           mret {| current := Some q'; published := published st |}
       | None => mret st
       end.

Definition finish (tb : Tables) (st : ParserState) : Result ParserState :=
  st' ← _handle_completion tb st;
  mret {| current := None; published := published st' |}.

(** Feeding a sequence of lines, stopping at the first exception. *)
Fixpoint parse_all `{PyRuntime} (tb : Tables) (st : ParserState)
  (lines : list string) : Result ParserState :=
  match lines with
  | [] => Ok st
  | line :: rest => st' ← parse tb st line; parse_all tb st' rest
  end.

End QueryParser.

(** ** [binlog.py]: [BinlogParser] *)

(** A file object opened for writing: what the file holds and the offset
    of the next write. *)
Record FileObject : Type := {
  data : string;
  offset : nat
}.

(** What [open(path, 'r')] followed by [read()] finds at a path: a
    readable file, or an error number.  A path the file system does not
    hold is missing, error number 2. *)
Inductive Node : Type :=
| Readable (contents : string)
| Failing (errno : Z).

Module BinlogParser.

Definition open_read (fs : gmap string Node) (path : string) : Result string :=
  match fs !! path with
  | Some (Readable contents) => Ok contents
  | Some (Failing errno) => Raise (IOError errno)
  | None => Raise (IOError 2)
  end.

Definition read_position (fs : gmap string Node) (pos_file : string)
  : Result string :=
  match open_read fs pos_file with
  | Ok contents =>
      let ret := PyString.rstrip PyString.is_whitespace contents in
      if decide (ret = EmptyString) then Ok "0" else Ok ret
  | Raise (IOError err) =>
      if decide (err = 2) then Ok "0" else Raise (IOError err)
  | Raise e => Raise e
  end.

Definition seek_start (f : FileObject) : FileObject :=
  {| data := data f; offset := 0 |}.

Definition truncate (f : FileObject) : FileObject :=
  {| data := String.substring 0 (offset f) (data f); offset := offset f |}.

Definition write (f : FileObject) (s : string) : FileObject :=
  {| data := String.substring 0 (offset f) (data f) ++ s
             ++ PyString.drop (offset f + String.length s) (data f);
     offset := offset f + String.length s |}.

(** [write_position(f, pos)]; the flush has no effect on what the file
    holds.  Failures of the writes are not modelled. *)
Definition write_position (f : FileObject) (pos : string) : FileObject :=
  write (truncate (seek_start f)) pos.

(** The state of the [try] block of [process_binlog]: the query parser
    [p], the open position file and [last_position]. *)
Record Sweep : Type := {
  p : ParserState;
  writepos : FileObject;
  last_position : string
}.

(** One line of the decoder's output as the loop meets it: the value of
    [self.done] that the test at the top of the loop body observes, and the
    line. *)
Record Delivery : Type := {
  done : bool;
  line : string
}.

(** The calls the loop makes on the parser and on the position file. *)
Inductive Call : Type :=
| CallParse (line : string)
| CallWritePosition (pos : string)
| CallFinish.

(** How the [try] statement is left: the loop ran to the end of the
    stream and the [else] clause returned, the loop was left by [break], an
    exception was caught and logged by [except Exception], or an exception
    that is no [Exception] went through. *)
Inductive Exit : Type :=
| Completed
| Broke
| Caught (e : PyExc)
| Propagated (e : PyExc).

Record Run : Type := {
  exit : Exit;
  sweep : Sweep;
  calls : list Call
}.

Definition raised (e : PyExc) (s : Sweep) (calls : list Call) : Run :=
  {| exit := if is_Exception e then Caught e else Propagated e;
     sweep := s; calls := calls |}.

(** The body of the [for] loop after the test of [self.done]: the calls
    it makes, and the state it leaves or the exception it raises. *)
Definition loop_body `{PyRuntime} (tb : Tables) (l : string) (s : Sweep)
  : list Call * Result Sweep :=
  if PyString.startswith "### " l then
    let arg := PyString.rstrip PyString.is_crlf (PyString.drop 4 l) in
    ([CallParse arg],
     p' ← QueryParser.parse tb (p s) arg;
     mret {| p := p'; writepos := writepos s;
             last_position := last_position s |})
  else if PyString.startswith "# at " l then
    let pos := PyString.rstrip PyString.is_whitespace (PyString.drop 5 l) in
    ([CallWritePosition pos],
     mret {| p := p s; writepos := write_position (writepos s) pos;
             last_position := pos |})
  else ([], mret s).

(** The [for] loop over [proc.stdout] with its [else] clause, inside the
    [try]. *)
Fixpoint stream `{PyRuntime} (tb : Tables) (lines : list Delivery)
  (s : Sweep) (calls : list Call) : Run :=
  match lines with
  | [] =>
      let calls := (calls ++ [CallFinish])%list in
      match QueryParser.finish tb (p s) with
      | Ok p' =>
          {| exit := Completed;
             sweep := {| p := p'; writepos := writepos s;
                         last_position := last_position s |};
             calls := calls |}
      | Raise e => raised e s calls
      end
  | d :: rest =>
      if done d then {| exit := Broke; sweep := s; calls := calls |}
      else
        let '(made, outcome) := loop_body tb (line d) s in
        match outcome with
        | Ok s' => stream tb rest s' (calls ++ made)%list
        | Raise e => raised e s (calls ++ made)%list
        end
  end.

(** What the loop passes to the parser for a line of the decoder, when it
    passes anything. *)
Definition fed (l : string) : option string :=
  if PyString.startswith "### " l
  then Some (PyString.rstrip PyString.is_crlf (PyString.drop 4 l))
  else None.

End BinlogParser.

(** ** [callbacks.py]: [MygrateCallbacks] *)

Module MygrateCallbacks.

Section Registry.
(** [World] is whatever the callbacks act upon; [Args] and [Kwargs] are the
    tuple of positional and the dictionary of keyword arguments. *)
Context {World Args Kwargs : Type}.

(** [callback(table, *args, **kwargs)]: the world it leaves and the
    exception it raises, if any. *)
Definition Callback : Type :=
  string -> Args -> Kwargs -> World -> World * option PyExc.

(** An error handler runs inside the [except] clause: besides its four
    arguments it has the exception being handled, which a bare [raise]
    raises again. *)
Definition ErrorHandler : Type :=
  PyExc -> string -> string -> Args -> Kwargs -> World -> World * option PyExc.

Record Registry : Type := {
  callbacks : gmap string (gmap string Callback);
  error_handler : ErrorHandler
}.

Definition _default_error_handler : ErrorHandler :=
  fun in_flight table action args kwargs w => (w, Some in_flight).

Definition init : Registry :=
  {| callbacks := ∅; error_handler := _default_error_handler |}.

Definition register_error_handler (self : Registry) (handler : ErrorHandler)
  : Registry :=
  {| callbacks := callbacks self; error_handler := handler |}.

Definition register (self : Registry) (table action : string)
  (callback : Callback) : Registry :=
  let by_action := default ∅ (callbacks self !! table) in
  {| callbacks := <[table := <[action := callback]> by_action]> (callbacks self);
     error_handler := error_handler self |}.

Definition get_registered_tables (self : Registry) : list string :=
  (map_to_list (callbacks self)).*1.

Definition execute (self : Registry) (table action : string)
  (args : Args) (kwargs : Kwargs) (w : World) : World * option PyExc :=
  match callbacks self !! table with
  | None => (w, None)
  | Some by_action =>
      match by_action !! action with
      | None => (w, None)
      | Some callback =>
          match callback table args kwargs w with
          | (w', None) => (w', None)
          | (w', Some e) =>
              if is_Exception e
              then error_handler self e table action args kwargs w'
              else (w', Some e)
          end
      end
  end.

End Registry.

Arguments Registry : clear implicits.
Arguments Callback : clear implicits.
Arguments ErrorHandler : clear implicits.

End MygrateCallbacks.

(** ** [config.py]: [MygrateConfig] *)

(** What the configuration provider asks of the operating system and of
    the language: the tests on paths, [os.makedirs] (an [OSError] it raises
    is swallowed by the caller and leaves the file system as it likes),
    [os.path.expanduser] and the conversion [float(s)] ([None] when it
    raises [ValueError]). *)
Class Os : Type := {
  FileSystem : Type;
  Float : Type;
  path_exists : FileSystem -> string -> bool;
  path_isdir : FileSystem -> string -> bool;
  makedirs : FileSystem -> string -> FileSystem;
  expanduser : string -> string;
  float : string -> option Float
}.

Module MygrateConfig.

(** [self.parser.get(section, option)] on the files that were read: the
    sections and their options.  The [DEFAULT] section and value
    interpolation are not modelled. *)
Definition get (parser : gmap string (gmap string string))
  (section option : string) : Result string :=
  match parser !! section with
  | None => Raise NoSectionError
  | Some options =>
      match options !! option with
      | None => Raise NoOptionError
      | Some value => Ok value
      end
  end.

(** [except (NoSectionError, NoOptionError)] *)
Definition missing (e : PyExc) : bool :=
  match e with
  | NoSectionError | NoOptionError => true
  | _ => false
  end.

Definition get_celery_info (parser : gmap string (gmap string string))
  : Result string :=
  match get parser "celery" "broker_url" with
  | Ok broker_url => Ok broker_url
  | Raise e =>
      if missing e
      then Raise (MygrateConfigError
             "Please specify the celery::broker_url configuration option.")
      else Raise e
  end.

Section WithOs.
Context `{Os}.

Definition get_mysql_binlog_info (fs : FileSystem)
  (parser : gmap string (gmap string string)) : Result (string * Float) :=
  index_file ←
    match get parser "mysql" "binlog_index" with
    | Ok v => Ok v
    | Raise e => if missing e then Ok "/var/log/mysql/mysql-bin.index"
                 else Raise e
    end;
  if path_exists fs index_file then
    delay ←
      match get parser "binlog" "tracking_delay" with
      | Ok v => Ok v
      | Raise e => if missing e then Ok "1.0" else Raise e
      end;
    match float delay with
    | Some d => Ok (index_file, d)
    | None => Raise ValueError
    end
  else Raise (MygrateConfigError ("Invalid binlog index file: " ++ index_file)).

(** The file system [get_tracking_dir] leaves, and what it returns. *)
Definition get_tracking_dir (fs : FileSystem)
  (parser : gmap string (gmap string string)) : FileSystem * Result string :=
  match get parser "binlog" "tracking_dir" with
  | Ok tracking_dir =>
      let tracking_dir := expanduser tracking_dir in
      if path_isdir fs tracking_dir then (fs, Ok tracking_dir)
      else (fs, Raise (MygrateConfigError
                  ("Tracking directory does not exist: " ++ tracking_dir)))
  | Raise e =>
      if missing e then
        let tracking_dir := expanduser "~/.binlog-tracking" in
        let fs := makedirs fs tracking_dir in
        let tracking_dir := expanduser tracking_dir in
        if path_isdir fs tracking_dir then (fs, Ok tracking_dir)
        else (fs, Raise (MygrateConfigError
                    ("Tracking directory does not exist: " ++ tracking_dir)))
      else (fs, Raise e)
  end.

End WithOs.

End MygrateConfig.

(** ** Vocabulary of the properties *)

(** The class of query a line starts, when it starts one: the three tests
    of [QueryParser.parse], in their order. *)
Definition header_type (line : string) : option QueryType :=
  if PyString.startswith "INSERT" line then Some INSERT
  else if PyString.startswith "UPDATE" line then Some UPDATE
  else if PyString.startswith "DELETE" line then Some DELETE
  else None.

(** The column line with index [idx] and value token [value]. *)
Definition column_line (idx value : string) : string :=
  "  @" ++ idx ++ "=" ++ value.

Fixpoint all_chars (f : ascii -> bool) (s : string) : bool :=
  match s with
  | EmptyString => true
  | String c s' => (f c && all_chars f s')%bool
  end.

Definition no_newline (s : string) : bool :=
  all_chars (fun c => negb (Ascii.eqb c PyString.newline)) s.

Definition event_table (ev : Event) : string :=
  match ev with
  | Insert t _ | Update t _ _ | Delete t _ => t
  end.

(** The column maps of a job, each with the key of the positional list it
    was translated from. *)
Definition event_maps (ev : Event) : list (string * gmap string PyValue) :=
  match ev with
  | Insert _ s => [("SET", s)]
  | Update _ w s => [("WHERE", w); ("SET", s)]
  | Delete _ w => [("WHERE", w)]
  end.

(** The positional lists the [finish] of a class translates. *)
Definition translated (t : QueryType) : list string :=
  match t with
  | INSERT => ["SET"]
  | UPDATE => ["WHERE"; "SET"]
  | DELETE => ["WHERE"]
  end.

(** How many times the loop called [finish()]. *)
Fixpoint finish_calls (cs : list BinlogParser.Call) : nat :=
  match cs with
  | [] => 0
  | BinlogParser.CallFinish :: rest => S (finish_calls rest)
  | _ :: rest => finish_calls rest
  end.

(** The lines the loop passes to the parser when it runs through the
    whole stream. *)
Definition fed_lines (lines : list BinlogParser.Delivery) : list string :=
  omap (fun d => BinlogParser.fed (BinlogParser.line d)) lines.


(** ** The value decoding of the design document

    A second definition, written after the three steps of the design
    document's value decoding, to be compared with [_parse_value]. *)

Module Design.

Fixpoint contains_space (s : string) : bool :=
  match s with
  | EmptyString => false
  | String c s' => (Ascii.eqb c " "%char || contains_space s')%bool
  end.

(** The token up to its first space. *)
Fixpoint prefix (s : string) : string :=
  match s with
  | EmptyString => EmptyString
  | String c s' =>
      if Ascii.eqb c " "%char then EmptyString else String c (prefix s')
  end.

(** Step 3: a byte string is decoded through the charset of the table,
    when it has one; any other value is left as it is. *)
Definition through_charset `{PyRuntime} (v : PyValue)
  (char_set : option string) : Result PyValue :=
  match v, char_set with
  | PyStr bytes, Some cs => text ← str_decode cs bytes; mret (PyUnicode text)
  | _, _ => mret v
  end.

(** Steps 1 and 2: the literal decode, then the second attempt on the
    prefix, then null. *)
Definition decode_value `{PyRuntime} (token : string)
  (char_set : option string) : Result PyValue :=
  match literal_eval token with
  | Some v => through_charset v char_set
  | None =>
      if contains_space token then
        match literal_eval (prefix token) with
        | Some v => through_charset v char_set
        | None => mret PyNone
        end
      else mret PyNone
  end.

End Design.

(** ** A runtime for the worked scenarios

    [ast.literal_eval] and the codec registry belong to the Python library.
    The general results below hold for every [PyRuntime]; the scenarios are
    evaluated with this instance, which reads the tokens they use the way
    Python 2 does: a decimal integer literal without leading zero,
    optionally negated, and a single-quoted string without escape or quote
    inside.  Every other token is reported as failing, which is what
    Python does with [NULL], [garbage] and [1234 /* INT meta */], though not
    with every token.  The only codec is [latin1], which maps each byte to
    the code point of the same number. *)

Module Scenario.

Fixpoint decimal (acc : Z) (s : string) : option Z :=
  match s with
  | EmptyString => Some acc
  | String c s' =>
      if PyString.is_digit c
      then decimal (10 * acc + (Z.of_nat (Ascii.nat_of_ascii c) - 48)) s'
      else None
  end.

Definition integer_literal (s : string) : option Z :=
  match s with
  | EmptyString => None
  | String c s' =>
      if Ascii.eqb c "0"%char
      then (if decide (s' = EmptyString) then Some 0 else None)
      else decimal 0 s
  end.

Definition plain_char (c : ascii) : bool :=
  negb (Ascii.eqb c "'"%char || Ascii.eqb c "\"%char ||
        Ascii.eqb c PyString.newline)%bool.

Definition quoted_literal (s : string) : option string :=
  match s with
  | String c s' =>
      if Ascii.eqb c "'"%char then
        let '(body, rest) := PyString.span plain_char s' in
        if decide (rest = "'") then Some body else None
      else None
  | EmptyString => None
  end.

Definition eval (s : string) : option PyValue :=
  match quoted_literal s with
  | Some body => Some (PyStr body)
  | None =>
      match s with
      | String c s' =>
          if Ascii.eqb c "-"%char
          then (fun n => PyInt (- n)) <$> integer_literal s'
          else PyInt <$> integer_literal s
      | EmptyString => None
      end
  end.

Definition decode (charset bytes : string) : Result string :=
  if decide (charset = "latin1") then Ok bytes else Raise LookupError.

#[local] Instance runtime : PyRuntime :=
  {| literal_eval := eval; str_decode := decode |}.

(** The table of the scenarios: [db1.t1] is registered, has the columns
    [id] and [name] and the charset [latin1]. *)
Definition tables : Tables :=
  {| callbacks := {[ "db1.t1" := "handlers" ]};
     column_names := {[ "db1.t1" := ["id"; "name"] ]};
     char_sets := {[ "db1.t1" := Some "latin1" ]} |}.

(** Feeding lines to a fresh parser. *)
Definition feed (lines : list string) : Result ParserState :=
  QueryParser.parse_all tables QueryParser.init lines.

(** The query a fresh parser holds after the lines
    [INSERT INTO `db1`.`t1`], [SET], [  @1=42]. *)
Definition short_insert : Query :=
  {| type := INSERT; table := Some "db1.t1"; invalid := false;
     current_value_type := Some "SET";
     values := <["SET" := [PyInt 42]]> (<["WHERE" := []]> ∅) |}.

(** Feeding lines to a fresh parser, then [finish()]. *)
Definition feed_and_finish (lines : list string) : Result ParserState :=
  st ← QueryParser.parse_all tables QueryParser.init lines;
  QueryParser.finish tables st.

(** A decoder output line that arrives while the agent is running. *)
Definition running (l : string) : BinlogParser.Delivery :=
  {| BinlogParser.done := false; BinlogParser.line := l |}.

(** The same, arriving after the shutdown flag was set. *)
Definition stopping (l : string) : BinlogParser.Delivery :=
  {| BinlogParser.done := true; BinlogParser.line := l |}.

Definition line_feed : string := String PyString.newline EmptyString.

(** The start of a sweep that resumes at position 0. *)
Definition sweep0 : BinlogParser.Sweep :=
  {| BinlogParser.p := QueryParser.init;
     BinlogParser.writepos := {| data := "0"; offset := 1 |};
     BinlogParser.last_position := "0" |}.

(** The decoder output of the design document's scenario 4, with the
    headers for [db1.t1]. *)
Definition output4 : list string :=
  [ "# at 100" ++ line_feed;
    "### INSERT INTO `db1`.`t1`" ++ line_feed;
    "### SET" ++ line_feed;
    "###   @1=1" ++ line_feed;
    "# at 200" ++ line_feed;
    "### INSERT INTO `db1`.`t1`" ++ line_feed;
    "### SET" ++ line_feed;
    "###   @1=2" ++ line_feed ].

Definition run (lines : list BinlogParser.Delivery) : BinlogParser.Run :=
  BinlogParser.stream tables lines sweep0 [].

(** A disk for the configuration provider: the paths that exist, and those
    among them that are directories.  The home directory is
    [/home/mygrate]; a float is kept as the text it is written with, digits
    with at most one point among them. *)
Record Disk : Type := {
  files : gset string;
  directories : gset string
}.

Definition home (path : string) : string :=
  if PyString.startswith "~/" path then "/home/mygrate" ++ PyString.drop 1 path
  else path.

Definition float_text (s : string) : option string :=
  let '(whole, rest) := PyString.span PyString.is_digit s in
  match whole, rest with
  | String _ _, EmptyString => Some s
  | String _ _, String c frac =>
      if (Ascii.eqb c "."%char && all_chars PyString.is_digit frac)%bool
      then Some s else None
  | _, _ => None
  end.

#[local] Instance os : Os :=
  {| FileSystem := Disk;
     Float := string;
     path_exists := fun d path =>
       bool_decide (path ∈ files d ∪ directories d);
     path_isdir := fun d path => bool_decide (path ∈ directories d);
     makedirs := fun d path =>
       {| files := files d; directories := {[ path ]} ∪ directories d |};
     expanduser := home;
     float := float_text |}.

Definition disk : Disk :=
  {| files := {[ "/data/mysql-bin.index" ]};
     directories := {[ "/var/lib/mygrate" ]} |}.

(** A configuration with the sections the code reads. *)
Definition code_config : gmap string (gmap string string) :=
  {[ "celery" := {[ "broker_url" := "amqp://broker" ]};
     "binlog" := {[ "tracking_dir" := "/var/lib/mygrate" ]};
     "mysql" := {[ "binlog_index" := "/data/mysql-bin.index" ]} ]}.

(** The same options under the section names of the design document's
    configuration table. *)
Definition table_config : gmap string (gmap string string) :=
  {[ "queue" := {[ "broker_url" := "amqp://broker" ]};
     "tracker" := {[ "tracking_dir" := "/var/lib/mygrate" ]};
     "database" := {[ "binlog_index" := "/data/mysql-bin.index" ]} ]}.

(** A registry over a world that logs the calls made on it. *)
Definition logging (name : string)
  : MygrateCallbacks.Callback (list string) (list PyValue) unit :=
  fun table _ _ w => ((w ++ [(name ++ " " ++ table)%string])%list, None).

Definition failing (e : PyExc)
  : MygrateCallbacks.Callback (list string) (list PyValue) unit :=
  fun table _ _ w => ((w ++ [("failing " ++ table)%string])%list, Some e).

Definition registry
  : MygrateCallbacks.Registry (list string) (list PyValue) unit :=
  MygrateCallbacks.register
    (MygrateCallbacks.register MygrateCallbacks.init
       "db1.t1" "INSERT" (logging "insert"))
    "db1.t1" "DELETE" (failing ValueError).

End Scenario.

(** ** Vocabulary of the further properties *)

(** The query in progress, if any, is for a registered table. *)
Definition tracked (tb : Tables) (st : ParserState) : Prop :=
  forall q, current st = Some q ->
    exists t, table q = Some t /\ is_Some (callbacks tb !! t).

(** An identifier between backticks, as the decoder writes it. *)
Definition backticked (ident : string) : string := "`" ++ ident ++ "`".

(** A character that may stand in a segment of a table name: no dot, no
    backtick, no line feed. *)
Definition ident_char (c : ascii) : bool :=
  negb (Ascii.eqb c "."%char || PyString.is_backtick c ||
        Ascii.eqb c PyString.newline)%bool.


(** ** [binlog.py]: the position files and the sweeps of [BinlogParser] *)

Module BinlogFiles.

(** [s.rfind(c)]: the index of the last occurrence of [c], or [-1]. *)
Fixpoint rfind (c : ascii) (s : string) : Z :=
  match s with
  | EmptyString => -1
  | String a s' =>
      let i := rfind c s' in
      if 0 <=? i then i + 1 else if Ascii.eqb a c then 0 else -1
  end.

Definition is_dot (c : ascii) : bool := Ascii.eqb c "."%char.

(** [os.path.splitext(p)] of [posixpath]: the extension starts at the last
    dot, when that dot stands after the last slash and after a character
    of the file name that is no dot. *)
Definition splitext (p : string) : string * string :=
  let sepIndex := rfind "/"%char p in
  let dotIndex := rfind "."%char p in
  if sepIndex <? dotIndex then
    let filename := String.substring (Z.to_nat (sepIndex + 1))
                      (Z.to_nat (dotIndex - (sepIndex + 1))) p in
    if all_chars is_dot filename then (p, EmptyString)
    else (String.substring 0 (Z.to_nat dotIndex) p,
          PyString.drop (Z.to_nat dotIndex) p)
  else (p, EmptyString).

(** [s.endswith('/')] *)
Fixpoint ends_with_slash (s : string) : bool :=
  match s with
  | EmptyString => false
  | String c EmptyString => Ascii.eqb c "/"%char
  | String _ s' => ends_with_slash s'
  end.

(** [os.path.join(a, b)] of [posixpath] *)
Definition join (a b : string) : string :=
  if PyString.startswith "/" b then b
  else if (bool_decide (a = EmptyString) || ends_with_slash a)%bool then a ++ b
  else a ++ "/" ++ b.

Definition build_pos_file (pos_dir binlog : string) : string :=
  let '(binlog_base, binlog_ext) := splitext binlog in
  join pos_dir ("binlogpos" ++ binlog_ext).

(** [open(pos_file, 'w')]: the file is created or emptied.  Failures of
    opening and closing are not modelled. *)
Definition open_write : FileObject := {| data := EmptyString; offset := 0 |}.

(** What a line of the decoder makes the loop write to the position
    file, when it makes it write. *)
Definition marker (l : string) : option string :=
  if PyString.startswith "### " l then None
  else if PyString.startswith "# at " l
       then Some (PyString.rstrip PyString.is_whitespace (PyString.drop 5 l))
       else None.

(** [process_binlog(binlog)], the output of the decoder started at the
    position read being given: the file system it leaves, with the
    position file as it is closed, and the run of the loop. *)
Definition process_binlog `{PyRuntime} (tb : Tables) (pos_dir : string)
  (fs : gmap string Node) (binlog : string)
  (output : string -> list BinlogParser.Delivery)
  : Result (gmap string Node * BinlogParser.Run) :=
  let pos_file := build_pos_file pos_dir binlog in
  last_position ← BinlogParser.read_position fs pos_file;
  let writepos := BinlogParser.write_position open_write last_position in
  let r := BinlogParser.stream tb (output last_position)
             {| BinlogParser.p := QueryParser.init;
                BinlogParser.writepos := writepos;
                BinlogParser.last_position := last_position |} [] in
  mret (<[pos_file :=
            Readable (data (BinlogParser.writepos (BinlogParser.sweep r)))]> fs,
        r).

(** [str(n)] for a size *)
Definition str (n : nat) : string := NilEmpty.string_of_uint (Nat.to_uint n).

(** What the operating system answers to the calls of
    [set_binlogpos_at_end]: the size [os.path.getsize(binlog)] returns, and
    the exception, if any, that [open(pos_file, 'w')], the writes of
    [write_position] and the [print] statement raise. *)
Record Answers : Type := {
  getsize : Result nat;
  opening : option PyExc;
  writing : option PyExc;
  printing : option PyExc
}.

(** The statement that raises [e] when the answer is an exception. *)
Definition attempt (answer : option PyExc) : Result unit :=
  match answer with
  | Some e => Raise e
  | None => Ok tt
  end.

(** [set_binlogpos_at_end(binlog)]: the file system it leaves when it
    returns; the first exception propagates, no statement of the method
    catching any.  What the file system holds after an exception is not
    modelled. *)
Definition set_binlogpos_at_end (pos_dir : string) (fs : gmap string Node)
  (binlog : string) (sys : Answers) : Result (gmap string Node) :=
  let pos_file := build_pos_file pos_dir binlog in
  old_pos ← BinlogParser.read_position fs pos_file;
  binlog_size ← getsize sys;
  _ ← attempt (opening sys);
  _ ← attempt (writing sys);
  let f := BinlogParser.write_position open_write (str binlog_size) in
  _ ← attempt (printing sys);
  mret (<[pos_file := Readable (data f)]> fs).

Section Sweeps.
(** Modification times are compared and never computed with: they are
    kept abstract, with [zero] for [0.0] and [lt_time] for the comparison.
    [getmtime] is [os.path.getmtime] and [process] is [process_binlog], on
    whatever they act upon. *)
Context {Time World : Type}.
Context (zero : Time) (lt_time : Time -> Time -> bool).
Context (getmtime : World -> string -> Result Time).
Context (process : World -> string -> Result World).

(** [self.binlog_mtimes], the world, and the binlogs processed so far. *)
Record Sweeper : Type := {
  binlog_mtimes : gmap string Time;
  world : World;
  processed : list string
}.

(** [process_all_binlogs()] over the paths read from the index, each with
    the value of [self.done] observed when its turn comes. *)
Fixpoint process_all_binlogs (binlogs : list (bool * string)) (st : Sweeper)
  : Result Sweeper :=
  match binlogs with
  | [] => Ok st
  | (done, binlog) :: rest =>
      if done then process_all_binlogs rest st
      else
        let old_mtime := default zero (binlog_mtimes st !! binlog) in
        mtime ← getmtime (world st) binlog;
        let mtimes := <[binlog := mtime]> (binlog_mtimes st) in
        if lt_time old_mtime mtime then
          w ← process (world st) binlog;
          process_all_binlogs rest
            {| binlog_mtimes := mtimes; world := w;
               processed := (processed st ++ [binlog])%list |}
        else
          process_all_binlogs rest
            {| binlog_mtimes := mtimes; world := world st;
               processed := processed st |}
  end.

(** The remembered modification time of a binlog is its present one. *)
Definition up_to_date (st : Sweeper) (binlog : string) : Prop :=
  exists t, binlog_mtimes st !! binlog = Some t /\
            getmtime (world st) binlog = Ok t.

End Sweeps.

(** [db, table = full_table.split('.', 1)] *)
Fixpoint split_once (s : string) : Result (string * string) :=
  match s with
  | EmptyString => Raise ValueError
  | String c s' =>
      if Ascii.eqb c "."%char then Ok (EmptyString, s')
      else '(db, table) ← split_once s'; mret (String c db, table)
  end.

(** The loop of [load_column_names] and of [load_character_sets] over the
    registered tables, [lookup] being the query on the information schema. *)
Fixpoint load_tables {A : Type} (lookup : string -> string -> A)
  (tables : list string) (loaded : gmap string A) : Result (gmap string A) :=
  match tables with
  | [] => Ok loaded
  | full_table :: rest =>
      '(db, table) ← split_once full_table;
      load_tables lookup rest (<[full_table := lookup db table]> loaded)
  end.


Definition load_character_sets (charset : string -> string -> option string)
  (tb : Tables) : Result Tables :=
  sets ← load_tables charset (map_to_list (callbacks tb)).*1 (char_sets tb);
  mret {| callbacks := callbacks tb; column_names := column_names tb;
          char_sets := sets |}.

End BinlogFiles.

(** ** [query.py]: [InitialQuery] *)

Module InitialQuery.

Section Importer.
(** A row is the dictionary a [DictCursor] yields; [select_all db table] is
    what iterating the cursor after [SELECT * FROM table] gives in the
    database [db].  Here the connection, its cursor and the SELECT are
    taken to succeed; [TableImport] below has their failures. *)
Context {World Row Kwargs : Type}.
Context (no_kwargs : Kwargs).
Context (select_all : string -> string -> list Row).

Definition run_callback
  (callbacks : MygrateCallbacks.Registry World (list Row) Kwargs)
  (action table : string) (cols : Row) (w : World) : World * option PyExc :=
  MygrateCallbacks.execute callbacks table action [cols] no_kwargs w.

(** [for row in cur: self.run_callback(full_table, row)] *)
Fixpoint for_rows
  (callbacks : MygrateCallbacks.Registry World (list Row) Kwargs)
  (action full_table : string) (rows : list Row) (w : World)
  : World * option PyExc :=
  match rows with
  | [] => (w, None)
  | row :: rest =>
      match run_callback callbacks action full_table row w with
      | (w', None) => for_rows callbacks action full_table rest w'
      | (w', Some e) => (w', Some e)
      end
  end.

(** [process_table(full_table)]: the unpacking of the split raises
    [ValueError] unless there are two parts; an [Exception] of the loop is
    logged and swallowed. *)
Definition process_table
  (callbacks : MygrateCallbacks.Registry World (list Row) Kwargs)
  (action full_table : string) (w : World) : World * option PyExc :=
  match PyString.split_dot full_table with
  | [db; table] =>
      match for_rows callbacks action full_table (select_all db table) w with
      | (w', Some e) => if is_Exception e then (w', None) else (w', Some e)
      | (w', None) => (w', None)
      end
  | _ => (w, Some ValueError)
  end.

(** The loop of [main] over the requested tables. *)
Fixpoint import_tables
  (callbacks : MygrateCallbacks.Registry World (list Row) Kwargs)
  (action : string) (tables : list string) (w : World)
  : World * option PyExc :=
  match tables with
  | [] => (w, None)
  | table :: rest =>
      match process_table callbacks action table w with
      | (w', None) => import_tables callbacks action rest w'
      | (w', Some e) => (w', Some e)
      end
  end.

End Importer.

End InitialQuery.

(** ** [query.py]: [process_table] and [main] with the connection *)

Module TableImport.

Section Connected.
Context {World Row Kwargs : Type}.
Context (no_kwargs : Kwargs).

(** What a database answers to [process_table]: the exception, if any, that
    [get_connection(db)] or [conn.cursor()] raises; for a table, the rows
    the cursor yields after [SELECT * FROM table] and the exception, if
    any, that [cur.execute] or the iteration raises after them; and the
    exception, if any, that [cur.close()] or [conn.close()] raises. *)
Record Database : Type := {
  connecting : option PyExc;
  selected : string -> list Row * option PyExc;
  closing : option PyExc
}.

Context (database : string -> Database).

(** [process_table(full_table)]: the split and the connection stand before
    the [try]; the SELECT and the loop over the rows stand inside it, with
    [except Exception] logging what they raise; [finally] closes the cursor
    and the connection. *)
Definition process_table
  (callbacks : MygrateCallbacks.Registry World (list Row) Kwargs)
  (action full_table : string) (w : World) : World * option PyExc :=
  match PyString.split_dot full_table with
  | [db; table] =>
      match connecting (database db) with
      | Some e => (w, Some e)
      | None =>
          let sel := selected (database db) table in
          let loop := InitialQuery.for_rows no_kwargs callbacks action
                        full_table sel.1 w in
          let raised := match loop.2 with
                        | Some e => Some e
                        | None => sel.2
                        end in
          let leaving := match raised with
                         | Some e => if is_Exception e then None else Some e
                         | None => None
                         end in
          match closing (database db) with
          | Some e => (loop.1, Some e)
          | None => (loop.1, leaving)
          end
      end
  | _ => (w, Some ValueError)
  end.

(** The loop of [main] over the requested tables. *)
Fixpoint import_tables
  (callbacks : MygrateCallbacks.Registry World (list Row) Kwargs)
  (action : string) (tables : list string) (w : World)
  : World * option PyExc :=
  match tables with
  | [] => (w, None)
  | table :: rest =>
      match process_table callbacks action table w with
      | (w', None) => import_tables callbacks action rest w'
      | (w', Some e) => (w', Some e)
      end
  end.

(** The connection and its cursor are obtained and closed without
    exception. *)
Definition reachable (full_table : string) : Prop :=
  forall db table,
    PyString.split_dot full_table = [db; table] ->
    connecting (database db) = None /\ closing (database db) = None.

End Connected.

End TableImport.


(** The position the loop has written last when it has consumed [lines],
    starting from the position [start]. *)
Definition last_marker (start : string) (lines : list BinlogParser.Delivery)
  : string :=
  foldl (fun pos d => default pos (BinlogFiles.marker (BinlogParser.line d)))
    start lines.

(** A position as [read_position] returns it: the string 0 for an empty
    one. *)
Definition position_read (pos : string) : string :=
  if decide (pos = EmptyString) then "0" else pos.


(** ** Fixtures of the further properties *)

Module Fixtures.

(** Two binlogs with their modification times, as seconds. *)
Definition mtimes : gmap string Z :=
  {[ "/var/log/mysql/mysql-bin.000001" := 10;
     "/var/log/mysql/mysql-bin.000002" := 20 ]}.

(** The world is the list of the binlogs processed. *)
Definition getmtime (w : list string) (binlog : string) : Result Z :=
  match mtimes !! binlog with
  | Some t => Ok t
  | None => Raise (OtherException "OSError")
  end.

Definition process (w : list string) (binlog : string) : Result (list string) :=
  Ok (w ++ [binlog])%list.

Definition index : list (bool * string) :=
  [ (false, "/var/log/mysql/mysql-bin.000001");
    (false, "/var/log/mysql/mysql-bin.000002") ].

Definition sweeper0 : BinlogFiles.Sweeper (Time := Z) (World := list string) :=
  {| BinlogFiles.binlog_mtimes := ∅; BinlogFiles.world := [];
     BinlogFiles.processed := [] |}.

(** The state after a first sweep over the index. *)
Definition sweeper1 : BinlogFiles.Sweeper (Time := Z) (World := list string) :=
  {| BinlogFiles.binlog_mtimes := mtimes;
     BinlogFiles.world := [ "/var/log/mysql/mysql-bin.000001";
                            "/var/log/mysql/mysql-bin.000002" ];
     BinlogFiles.processed := [ "/var/log/mysql/mysql-bin.000001";
                                "/var/log/mysql/mysql-bin.000002" ] |}.

End Fixtures.


(** ** Fixtures of the importer *)

Module ImportFixtures.

(** Every table holds the two rows 1 and 2. *)
Definition select_all (db table : string) : list PyValue := [PyInt 1; PyInt 2].

(** A registry whose only callback, for deletions in [db1.t1], raises. *)
Definition raising
  : MygrateCallbacks.Registry (list string) (list PyValue) unit :=
  MygrateCallbacks.register MygrateCallbacks.init
    "db1.t1" "DELETE" (Scenario.failing ValueError).

(** The database [db1] answers with the two rows for every table; the
    others refuse the connection. *)
Definition database (db : string) : TableImport.Database (Row := PyValue) :=
  {| TableImport.connecting :=
       if decide (db = "db1") then None
       else Some (OtherException "OperationalError");
     TableImport.selected := fun table => (select_all db table, None);
     TableImport.closing := None |}.

End ImportFixtures.


(** ** [config.py]: the connection parameters *)

Module ConnectionInfo.

(** The dictionary [mapping] of [get_mysql_connection_info]: the keyword
    of the connection and the option it is read from. *)
Definition mapping : list (string * string) :=
  [ ("host", "host"); ("port", "port"); ("user", "user");
    ("passwd", "password"); ("unix_socket", "unix_socket") ].

Section Parser.
(** [self.parser.get(section, option)] of the [SafeConfigParser], whatever
    it does: the value it returns, with the [DEFAULT] section and the
    interpolation of the value, or the exception it raises. *)
Context (get : string -> string -> Result string).

(** The loop over the items of the mapping. *)
Fixpoint collect (items : list (string * string)) (ret : gmap string string)
  : Result (gmap string string) :=
  match items with
  | [] => Ok ret
  | (key, value) :: rest =>
      match get "mysql" value with
      | Ok v => collect rest (<[key := v]> ret)
      | Raise e => if MygrateConfig.missing e then collect rest ret
                   else Raise e
      end
  end.

(** [get_mysql_connection_info()], [items] being [mapping.items()]: the
    items of the mapping in the order the dictionary gives them. *)
Definition get_mysql_connection_info (items : list (string * string))
  : Result (gmap string string) :=
  collect items ∅.

End Parser.

End ConnectionInfo.


(* ===================================================================== *)
(** * Part II: properties                                                *)
(* ===================================================================== *)

(** ** Value decoding *)

Section DecoderFacts.
Context `{PyRuntime}.

Lemma _parse_value_unfold (value : string) (char_set : option string) :
  QueryBase._parse_value value char_set =
  match literal_eval value with
  | Some literal => QueryBase.decode_literal literal char_set
  | None =>
      let '(before_space, sep, _) := PyString.partition_space value in
      if String.eqb sep " " then QueryBase._parse_value before_space char_set
      else Ok PyNone
  end.
Proof.
  funelim (QueryBase._parse_value value char_set); try rewrite <- Heqcall.
  - rewrite Heq. reflexivity.
  - rewrite Heq, Hpart, Hsep. reflexivity.
  - match goal with E : literal_eval _ = None |- _ => rewrite E end.
    rewrite Hpart.
    match goal with E : String.eqb _ _ = false |- _ => rewrite E end.
    reflexivity.
Qed.

Lemma partition_space_design (s : string) :
  exists after,
    PyString.partition_space s =
    (Design.prefix s, if Design.contains_space s then " " else "", after).
Proof.
  induction s as [|c s [after IH]]; simpl.
  - by exists "".
  - destruct (Ascii.eqb c " "); simpl.
    + by exists s.
    + rewrite IH. by exists after.
Qed.

Lemma prefix_no_space (s : string) :
  Design.contains_space (Design.prefix s) = false.
Proof.
  induction s as [|c s IH]; simpl; [done|].
  destruct (Ascii.eqb c " ") eqn:E; simpl; [done|]. by rewrite E.
Qed.

Lemma decode_literal_design (v : PyValue) (char_set : option string) :
  char_set <> Some "" ->
  QueryBase.decode_literal v char_set = Design.through_charset v char_set.
Proof.
  intros Hcs. destruct char_set as [[|c cs]|], v; simpl; congruence.
Qed.

(** An empty charset name is false as a condition: the literal is left as
    it is, as for a table without charset. *)
Lemma decode_literal_empty_charset (v : PyValue) :
  QueryBase.decode_literal v (Some "") = QueryBase.decode_literal v None.
Proof. by destruct v. Qed.

(** The decoder never recurses more than once: the prefix holds no space. *)
Lemma _parse_value_no_space (value : string) (char_set : option string) :
  Design.contains_space value = false ->
  QueryBase._parse_value value char_set =
  match literal_eval value with
  | Some literal => QueryBase.decode_literal literal char_set
  | None => Ok PyNone
  end.
Proof.
  intros Hns. rewrite _parse_value_unfold.
  destruct (literal_eval value); [done|].
  destruct (partition_space_design value) as [after ->]. by rewrite Hns.
Qed.

(** C6. Value decoding follows the three steps of the design document:
    the literal decode is tried first; when it fails and the token holds a
    space, the prefix before the first space is decoded instead; when that
    fails too, or when there is no space, the value is null; a decoded byte
    string goes through the charset of the table when it has one (a
    non-empty name).  In particular, for a runtime whose literal decode
    fails on [1234 /* INT meta */] and reads [1234] as an integer, the
    token [1234 /* INT meta */] decodes to the integer 1234. *)
Theorem parse_value_follows_design (value : string) (char_set : option string) :
  char_set <> Some "" ->
  QueryBase._parse_value value char_set = Design.decode_value value char_set
  /\ (literal_eval "1234 /* INT meta */" = None ->
      literal_eval "1234" = Some (PyInt 1234) ->
      QueryBase._parse_value "1234 /* INT meta */" char_set = Ok (PyInt 1234)).
Proof.
  intros Hcs.
  assert (Heq : forall v,
    QueryBase._parse_value v char_set = Design.decode_value v char_set).
  { intros v. rewrite _parse_value_unfold. unfold Design.decode_value.
    destruct (literal_eval v) as [lit|] eqn:Hv.
    - by apply decode_literal_design.
    - destruct (partition_space_design v) as [after ->].
      destruct (Design.contains_space v); simpl; [|done].
      rewrite _parse_value_no_space by apply prefix_no_space.
      destruct (literal_eval (Design.prefix v)); [|done].
      by apply decode_literal_design. }
  split; [apply Heq|].
  intros Hfail Hint. rewrite Heq. unfold Design.decode_value.
  rewrite Hfail. simpl. rewrite Hint. reflexivity.
Qed.

End DecoderFacts.

Lemma parse_value_follows_design_witness :
  QueryBase._parse_value (H := Scenario.runtime)
    "1234 /* INT meta */" (Some "latin1") = Ok (PyInt 1234).
Proof.
  apply (parse_value_follows_design (H := Scenario.runtime)
           "1234 /* INT meta */" (Some "latin1")).
  - discriminate.
  - reflexivity.
  - reflexivity.
Defined.

(** ** Strings and patterns *)

Lemma span_all (f : ascii -> bool) (s rest : string) :
  all_chars f s = true ->
  (rest = "" \/ exists c r, rest = String c r /\ f c = false) ->
  PyString.span f (s ++ rest) = (s, rest).
Proof.
  intros Hs Hrest. induction s as [|c s IH]; simpl in *.
  - destruct Hrest as [->|(c & r & -> & Hc)]; simpl; [done|]. by rewrite Hc.
  - apply andb_prop in Hs as [Hc Hs]. rewrite Hc, (IH Hs). done.
Qed.

Lemma match_rest_no_newline (s : string) :
  no_newline s = true -> PyString.match_rest s = Some s.
Proof.
  intros Hs. unfold PyString.match_rest.
  pose proof (span_all _ s "" Hs (or_introl eq_refl)) as E.
  assert (Hnil : s ++ "" = s).
  { clear. induction s as [|c s IH]; simpl; [done|]. by rewrite IH. }
  rewrite Hnil in E. rewrite E. by rewrite decide_True.
Qed.

Lemma match_column_line (idx value : string) :
  all_chars PyString.is_digit idx = true -> idx <> "" ->
  no_newline value = true ->
  PyString.match_column (column_line idx value) = Some (idx, value).
Proof.
  intros Hd Hne Hv. unfold PyString.match_column, column_line. simpl.
  rewrite (span_all PyString.is_digit idx (String "="%char value) Hd).
  - destruct idx; [done|]. simpl. by rewrite match_rest_no_newline.
  - right. by exists "="%char, value.
Qed.

Lemma column_line_not_keyword (idx value : string) :
  ~ (column_line idx value = "SET" \/ column_line idx value = "WHERE").
Proof. unfold column_line. simpl. intros [?|?]; discriminate. Qed.

(** ** The query object *)

Section QueryFacts.
Context `{PyRuntime}.

Lemma parse_column_line (tb : Tables) (q : Query) (idx value : string) :
  all_chars PyString.is_digit idx = true -> idx <> "" ->
  no_newline value = true ->
  QueryBase.parse tb q (column_line idx value) =
  (col_value ← QueryBase._parse_value value
                 (QueryBase.get_char_set tb (table q));
   l ← QueryBase.getitem (values q) (current_value_type q);
   match current_value_type q with
   | Some k => mret (QueryBase.set_values q
                       (<[k := (l ++ [col_value])%list]> (values q)))
   | None => Raise KeyError
   end).
Proof.
  intros Hd Hne Hv. unfold QueryBase.parse.
  rewrite decide_False by apply column_line_not_keyword.
  by rewrite match_column_line.
Qed.

Lemma init_fields (t : QueryType) (header : string) :
  let q := QueryBase.init t header in
  type q = t /\ current_value_type q = None /\
  values q !! "SET" = Some [] /\ values q !! "WHERE" = Some [].
Proof.
  unfold QueryBase.init, QueryBase._parse_initial_line. simpl.
  destruct (PyString.match_header _ _); simpl; done.
Qed.

(** C3 (as amended). The index of a column line has to be a run of
    decimal digits, and that is all: the line is handled exactly as the
    line with index 1 and the same value would be, and when it is accepted
    the decoded value is put at the end of the positional list of the
    current phase and the event is not marked invalid, whatever the index
    (out of order, repeated or skipping values). *)
Theorem column_index_not_examined (tb : Tables) (q : Query)
  (idx value : string) :
  all_chars PyString.is_digit idx = true -> idx <> "" ->
  no_newline value = true ->
  QueryBase.parse tb q (column_line idx value) =
    QueryBase.parse tb q (column_line "1" value)
  /\ forall q', QueryBase.parse tb q (column_line idx value) = Ok q' ->
       invalid q' = invalid q /\
       exists k l v,
         current_value_type q = Some k /\ values q !! k = Some l /\
         QueryBase._parse_value value
           (QueryBase.get_char_set tb (table q)) = Ok v /\
         values q' = <[k := (l ++ [v])%list]> (values q).
Proof.
  intros Hd Hne Hv. split.
  - rewrite !parse_column_line; done.
  - intros q'. rewrite parse_column_line by done.
    destruct (QueryBase._parse_value _ _) as [v|] eqn:Ev; simpl; [|done].
    destruct (current_value_type q) as [k|] eqn:Ek; simpl; [|done].
    destruct (values q !! k) as [l|] eqn:El; simpl; [|done].
    intros [= <-]. split; [done|]. by exists k, l, v.
Qed.

(** C4 (as amended). A header line establishes no phase: for the three
    classes alike the event starts with no current phase and two empty
    positional lists.  The phase is set by a [SET] or [WHERE] line, after
    which a column line is appended to the positional list of that phase
    without error; a column line fed right after the header is not
    appended to any list, the lookup of the list raising [KeyError]. *)
Theorem phase_set_by_keyword_line (tb : Tables) (t : QueryType)
  (header idx value : string) (v : PyValue) :
  all_chars PyString.is_digit idx = true -> idx <> "" ->
  no_newline value = true ->
  QueryBase._parse_value value
    (QueryBase.get_char_set tb (table (QueryBase.init t header))) = Ok v ->
  let q0 := QueryBase.init t header in
  current_value_type q0 = None
  /\ QueryBase.parse tb q0 (column_line idx value) = Raise KeyError
  /\ forall k, k = "SET" \/ k = "WHERE" ->
       exists q1 q2,
         QueryBase.parse tb q0 k = Ok q1 /\
         current_value_type q1 = Some k /\
         QueryBase.parse tb q1 (column_line idx value) = Ok q2 /\
         values q2 = <[k := [v]]> (values q0) /\
         invalid q2 = invalid q0.
Proof.
  intros Hd Hne Hv Hdec q0.
  destruct (init_fields t header) as (Ht & Hcur & Hset & Hwhere).
  fold q0 in Ht, Hcur, Hset, Hwhere, Hdec.
  split; [done|]. split.
  - rewrite parse_column_line by done. rewrite Hdec, Hcur. done.
  - intros k Hk.
    exists (QueryBase.set_current_value_type q0 (Some k)).
    eexists. split.
    { unfold QueryBase.parse. by rewrite decide_True. }
    split; [done|].
    rewrite parse_column_line by done. simpl. rewrite Hdec. simpl.
    assert (values q0 !! k = Some []) as ->
      by (destruct Hk as [->| ->]; done).
    simpl. done.
Qed.

End QueryFacts.

(** ** Translation of positional lists *)

Lemma translate_from_ok (names : list string) (vals : list PyValue) :
  forall (i : nat) (d m : gmap string PyValue),
    (i <= List.length names)%nat ->
    QueryBase.translate_from names i vals d = Ok m ->
    (i + List.length vals <= List.length names)%nat /\
    dom m = dom d ∪ list_to_set (take (List.length vals) (drop i names)).
Proof.
  induction vals as [|val rest IH]; intros i d m Hi; simpl.
  - intros [= <-]. split; [lia|set_solver].
  - destruct (names !! i) as [key|] eqn:Ei; [|done].
    pose proof (lookup_lt_Some _ _ _ Ei) as Hlt.
    intros Hm. apply IH in Hm as [Hlen Hdom]; [|lia].
    split; [lia|].
    rewrite Hdom, dom_insert_L, (drop_S _ _ _ Ei). simpl. set_solver.
Qed.

Lemma translate_from_raise (names : list string) (vals : list PyValue) :
  forall (i : nat) (d : gmap string PyValue),
    (i <= List.length names)%nat ->
    (List.length names < i + List.length vals)%nat ->
    QueryBase.translate_from names i vals d = Raise IndexError.
Proof.
  induction vals as [|val rest IH]; intros i d Hi Hlen; simpl in *.
  - lia.
  - destruct (names !! i) as [key|] eqn:Ei; [|done].
    pose proof (lookup_lt_Some _ _ _ Ei) as Hlt.
    apply IH; lia.
Qed.

Lemma translate_ok (names : list string) (vals : list PyValue)
  (m : gmap string PyValue) :
  QueryBase.translate names vals = Ok m ->
  (List.length vals <= List.length names)%nat /\
  dom m = list_to_set (take (List.length vals) names).
Proof.
  intros Hm. apply translate_from_ok in Hm as [Hlen Hdom]; [|lia].
  split; [lia|]. rewrite Hdom, dom_empty_L. simpl. set_solver.
Qed.

Lemma translate_raise (names : list string) (vals : list PyValue) :
  (List.length names < List.length vals)%nat ->
  QueryBase.translate names vals = Raise IndexError.
Proof. intros Hlen. apply translate_from_raise; lia. Qed.

Lemma translate_total (names : list string) (vals : list PyValue) :
  (List.length vals <= List.length names)%nat ->
  exists m, QueryBase.translate names vals = Ok m.
Proof.
  unfold QueryBase.translate. generalize (∅ : gmap string PyValue) at 1.
  replace (List.length vals) with (0 + List.length vals)%nat by done.
  generalize 0%nat.
  induction vals as [|val rest IH]; intros i d Hlen; simpl in *.
  - by exists d.
  - destruct (lookup_lt_is_Some_2 names i) as [key ->]; [lia|].
    apply IH. lia.
Qed.

(** The translation raises nothing but [IndexError]. *)
Lemma translate_from_only_index_error (names : list string)
  (vals : list PyValue) :
  forall (i : nat) (d : gmap string PyValue) (e : PyExc),
    QueryBase.translate_from names i vals d = Raise e -> e = IndexError.
Proof.
  induction vals as [|val rest IH]; intros i d e; simpl; [done|].
  destruct (names !! i) as [key|]; [apply IH|]. by intros [= <-].
Qed.

Lemma translate_fits_or_index_error (names : list string)
  (vals : list PyValue) :
  (exists m, QueryBase.translate names vals = Ok m) \/
  QueryBase.translate names vals = Raise IndexError.
Proof.
  destruct (QueryBase.translate names vals) as [m|e] eqn:E.
  - left. by exists m.
  - right. by apply translate_from_only_index_error in E as ->.
Qed.

(** ** Completion of a query *)

Lemma finish_ok_key_sets (tb : Tables) (q : Query) (ev : Event) :
  QueryParser.query_finish tb q = Ok ev ->
  exists names,
    table q = Some (event_table ev) /\
    column_names tb !! event_table ev = Some names /\
    Forall (fun km =>
              exists vals,
                values q !! km.1 = Some vals /\
                (List.length vals <= List.length names)%nat /\
                dom km.2 = list_to_set (take (List.length vals) names) /\
                (List.length vals = List.length names ->
                 dom km.2 = list_to_set names))
           (event_maps ev).
Proof.
  unfold QueryParser.query_finish, InsertQuery.finish, UpdateQuery.finish,
    DeleteQuery.finish.
  destruct (table q) as [t|] eqn:Et; simpl; [|by destruct (type q)].
  destruct (column_names tb !! t) as [names|] eqn:En; simpl;
    [|by destruct (type q)].
  assert (Hmap : forall k vals m,
            values q !! k = Some vals ->
            QueryBase.translate names vals = Ok m ->
            exists vals,
              values q !! (k, m).1 = Some vals /\
              (List.length vals <= List.length names)%nat /\
              dom (k, m).2 = list_to_set (take (List.length vals) names) /\
              (List.length vals = List.length names ->
               dom (k, m).2 = list_to_set names)).
  { intros k vals m Hk Hm. apply translate_ok in Hm as [Hlen Hdom].
    exists vals. simpl. repeat split; [done..|].
    intros Heq. rewrite Hdom, Heq. by rewrite firstn_all. }
  destruct (type q).
  - destruct (values q !! "SET") as [sl|] eqn:Es; simpl; [|done].
    destruct (QueryBase.translate names sl) as [sm|] eqn:Hs; simpl; [|done].
    intros [= <-]. exists names. simpl. repeat split; [done|].
    repeat constructor. by eapply Hmap.
  - destruct (values q !! "WHERE") as [wl|] eqn:Ew; simpl; [|done].
    destruct (QueryBase.translate names wl) as [wm|] eqn:Hw; simpl; [|done].
    destruct (values q !! "SET") as [sl|] eqn:Es; simpl; [|done].
    destruct (QueryBase.translate names sl) as [sm|] eqn:Hs; simpl; [|done].
    intros [= <-]. exists names. simpl. repeat split; [done|].
    repeat constructor; by eapply Hmap.
  - destruct (values q !! "WHERE") as [wl|] eqn:Ew; simpl; [|done].
    destruct (QueryBase.translate names wl) as [wm|] eqn:Hw; simpl; [|done].
    intros [= <-]. exists names. simpl. repeat split; [done|].
    repeat constructor. by eapply Hmap.
Qed.

(** Lists that fit the vector: [finish] returns the job, one column map
    for each list the kind of the query translates. *)
Lemma finish_ok_when_lists_fit (tb : Tables) (q : Query) (t : string)
  (names : list string) :
  table q = Some t -> column_names tb !! t = Some names ->
  (forall k, k ∈ translated (type q) ->
     exists vals, values q !! k = Some vals /\
                  (List.length vals <= List.length names)%nat) ->
  exists ev, QueryParser.query_finish tb q = Ok ev /\ event_table ev = t /\
             (event_maps ev).*1 = translated (type q).
Proof.
  intros Et En Hfit.
  unfold QueryParser.query_finish, InsertQuery.finish, UpdateQuery.finish,
    DeleteQuery.finish.
  rewrite Et. simpl. rewrite En. simpl.
  assert (Hk : forall k, k ∈ translated (type q) ->
            exists vals m, values q !! k = Some vals /\
                           QueryBase.translate names vals = Ok m).
  { intros k Hin. destruct (Hfit k Hin) as (vals & Hv & Hlen).
    destruct (translate_total names vals Hlen) as [m Hm]. by exists vals, m. }
  destruct (type q); simpl in Hk.
  - destruct (Hk "SET") as (sl & sm & -> & Hs); [set_solver|].
    simpl. rewrite Hs. simpl. by eexists.
  - destruct (Hk "WHERE") as (wl & wm & -> & Hw); [set_solver|].
    destruct (Hk "SET") as (sl & sm & -> & Hs); [set_solver|].
    simpl. rewrite Hw. simpl. rewrite Hs. simpl. by eexists.
  - destruct (Hk "WHERE") as (wl & wm & -> & Hw); [set_solver|].
    simpl. rewrite Hw. simpl. by eexists.
Qed.

(** A list longer than the vector, all the lists of the query being
    there: [finish] raises [IndexError], whichever list it is. *)
Lemma finish_index_error_when_longer (tb : Tables) (q : Query) (t k : string)
  (names : list string) (vals : list PyValue) :
  table q = Some t -> column_names tb !! t = Some names ->
  (forall k', k' ∈ translated (type q) -> is_Some (values q !! k')) ->
  k ∈ translated (type q) -> values q !! k = Some vals ->
  (List.length names < List.length vals)%nat ->
  QueryParser.query_finish tb q = Raise IndexError.
Proof.
  intros Et En Hall Hk Hv Hlen.
  unfold QueryParser.query_finish, InsertQuery.finish, UpdateQuery.finish,
    DeleteQuery.finish.
  rewrite Et. simpl. rewrite En. simpl.
  pose proof (translate_raise names vals Hlen) as Hr.
  destruct (type q); simpl in Hk, Hall.
  - apply list_elem_of_singleton in Hk as ->. rewrite Hv. simpl.
    by rewrite Hr.
  - apply elem_of_cons in Hk as [->|Hk].
    + rewrite Hv. simpl. by rewrite Hr.
    + apply list_elem_of_singleton in Hk as ->.
      destruct (Hall "WHERE") as [wl ->]; [set_solver|]. simpl.
      destruct (translate_fits_or_index_error names wl) as [[wm ->]| ->];
        simpl; [|done].
      rewrite Hv. simpl. by rewrite Hr.
  - apply list_elem_of_singleton in Hk as ->. rewrite Hv. simpl.
    by rewrite Hr.
Qed.

(** The lists of a query are there from its construction on. *)
Lemma parse_keeps_lists `{PyRuntime} (tb : Tables) (q q' : Query)
  (line k : string) :
  QueryBase.parse tb q line = Ok q' ->
  is_Some (values q !! k) -> is_Some (values q' !! k).
Proof.
  unfold QueryBase.parse.
  destruct (decide (line = "SET" \/ line = "WHERE")); [by intros [= <-]|].
  destruct (PyString.match_column line) as [[idx value]|]; [|by intros [= <-]].
  simpl.
  destruct (QueryBase._parse_value _ _); simpl; [|done].
  destruct (current_value_type q) as [cur|]; simpl; [|done].
  destruct (values q !! cur) as [l|] eqn:El; simpl; [|done].
  intros [= <-]. simpl. intros Hk.
  destruct (decide (cur = k)) as [->|Hne].
  - rewrite lookup_insert_eq. by eexists.
  - by rewrite lookup_insert_ne.
Qed.

(** C2 (as amended). For a table with a column-name vector, every job
    published carries column maps whose key set is the set of the first
    [n] names of the vector, [n] being the length of the positional list
    the map was translated from: the whole vector when the two lengths
    agree, and fewer names when the positional list is shorter, the job
    being published all the same; and when a positional list is longer
    than the vector, [finish] raises [IndexError] and publishes no job.
    The job [finish] returns is the one the parser appends to the queue,
    and what [finish] raises leaves the parser with nothing appended. *)
Theorem finish_key_sets (tb : Tables) (q : Query) :
  (forall ev,
     QueryParser.query_finish tb q = Ok ev ->
     exists names,
       table q = Some (event_table ev) /\
       column_names tb !! event_table ev = Some names /\
       Forall (fun km =>
                 exists vals,
                   values q !! km.1 = Some vals /\
                   (List.length vals <= List.length names)%nat /\
                   dom km.2 = list_to_set (take (List.length vals) names) /\
                   (List.length vals = List.length names ->
                    dom km.2 = list_to_set names))
              (event_maps ev))
  /\ (forall t names,
        table q = Some t -> column_names tb !! t = Some names ->
        (forall k, k ∈ translated (type q) ->
           exists vals, values q !! k = Some vals /\
                        (List.length vals <= List.length names)%nat) ->
        exists ev,
          QueryParser.query_finish tb q = Ok ev /\ event_table ev = t /\
          (event_maps ev).*1 = translated (type q) /\
          Forall (fun km =>
                    exists vals,
                      values q !! km.1 = Some vals /\
                      dom km.2 = list_to_set (take (List.length vals) names))
                 (event_maps ev))
  /\ (forall t k names vals,
        table q = Some t -> column_names tb !! t = Some names ->
        (forall k', k' ∈ translated (type q) -> is_Some (values q !! k')) ->
        k ∈ translated (type q) -> values q !! k = Some vals ->
        (List.length names < List.length vals)%nat ->
        QueryParser.query_finish tb q = Raise IndexError)
  /\ (forall st,
        current st = Some q ->
        QueryParser.finish tb st =
        match QueryParser.query_finish tb q with
        | Ok ev => Ok {| current := None;
                         published := (published st ++ [ev])%list |}
        | Raise e => Raise e
        end).
Proof.
  split_and!.
  - apply finish_ok_key_sets.
  - intros t names Et En Hfit.
    destruct (finish_ok_when_lists_fit tb q t names Et En Hfit)
      as (ev & Hev & Ht & Hkeys).
    exists ev. split_and!; [done..|].
    destruct (finish_ok_key_sets tb q ev Hev) as (names' & _ & En' & Hmaps).
    rewrite Ht, En in En'. injection En' as <-.
    eapply Forall_impl; [exact Hmaps|].
    intros km (vals & Hv & _ & Hdom & _). by exists vals.
  - intros t k names vals. apply finish_index_error_when_longer.
  - intros st Hq. unfold QueryParser.finish, QueryParser._handle_completion.
    rewrite Hq. simpl. by destruct (QueryParser.query_finish tb q).
Qed.

(** ** The query parser *)

Section ParserFacts.
Context `{PyRuntime}.

Lemma parse_not_header (tb : Tables) (st : ParserState) (line : string) :
  header_type line = None ->
  QueryParser.parse tb st line =
  match current st with
  | Some q =>
      q' ← QueryBase.parse tb q line;
      mret {| current := Some q'; published := published st |}
  | None => mret st
  end.
Proof.
  unfold header_type, QueryParser.parse.
  by repeat destruct (PyString.startswith _ line).
Qed.

Lemma parse_header (tb : Tables) (st : ParserState) (line : string)
  (t : QueryType) :
  header_type line = Some t ->
  QueryParser.parse tb st line = QueryParser.start t tb st line.
Proof.
  unfold header_type, QueryParser.parse.
  repeat destruct (PyString.startswith _ line); congruence.
Qed.

(** Without a current query, lines that start no query change nothing. *)
Lemma parse_all_untracked (tb : Tables) (evs : list Event)
  (rest : list string) :
  Forall (fun l => header_type l = None) rest ->
  QueryParser.parse_all tb {| current := None; published := evs |} rest =
  Ok {| current := None; published := evs |}.
Proof.
  induction 1 as [|l rest Hl _ IH]; simpl; [done|].
  rewrite parse_not_header by done. simpl. exact IH.
Qed.

(** A job reaches the queue only through the completion of the current
    query, one job at a time. *)
Lemma parse_publishes (tb : Tables) (st st' : ParserState) (line : string) :
  QueryParser.parse tb st line = Ok st' ->
  published st' = published st \/
  exists q ev, current st = Some q /\
               QueryParser.query_finish tb q = Ok ev /\
               published st' = (published st ++ [ev])%list.
Proof.
  destruct (header_type line) as [t|] eqn:Ht.
  - rewrite (parse_header _ _ _ t Ht).
    unfold QueryParser.start, QueryParser._handle_completion.
    destruct (current st) as [q|] eqn:Eq; simpl.
    + destruct (QueryParser.query_finish tb q) as [ev|] eqn:Ef; simpl; [|done].
      intros [= <-]. right. by exists q, ev.
    + intros [= <-]. by left.
  - rewrite parse_not_header by done.
    destruct (current st) as [q|]; simpl.
    + destruct (QueryBase.parse tb q line); simpl; [|done].
      intros [= <-]. by left.
    + intros [= <-]. by left.
Qed.

(** C10 (as amended). A line that merely begins with [INSERT], [UPDATE]
    or [DELETE] first completes the query in progress; when that completion
    does not raise, its job is published and a query of that class is then
    started.  When the line does not match the anchored pattern of the
    class, the new query has no table and is marked invalid, it is not
    tracked, and every following line that starts no query is ignored.
    When the completion raises, the exception leaves [parse]: nothing is
    published and no query is started. *)
Theorem header_prefix_starts_query (tb : Tables) (st : ParserState)
  (line : string) (t : QueryType) :
  header_type line = Some t ->
  let query := QueryBase.init t line in
  (forall evs,
     (current st = None /\ evs = []) \/
     (exists q ev, current st = Some q /\
                   QueryParser.query_finish tb q = Ok ev /\ evs = [ev]) ->
     QueryParser.parse tb st line =
       Ok {| current := if QueryParser.in_callbacks tb (table query)
                        then Some query else None;
             published := (published st ++ evs)%list |}
     /\ (PyString.match_header (QueryBase._initial_pattern t) line = None ->
         table query = None /\ invalid query = true /\
         QueryParser.parse tb st line =
           Ok {| current := None; published := (published st ++ evs)%list |} /\
         forall rest,
           Forall (fun l => header_type l = None) rest ->
           QueryParser.parse_all tb st (line :: rest) =
           Ok {| current := None; published := (published st ++ evs)%list |}))
  /\ (forall q e,
        current st = Some q -> QueryParser.query_finish tb q = Raise e ->
        QueryParser.parse tb st line = Raise e).
Proof.
  intros Ht query. split.
  - intros evs Hcur.
    assert (Hparse : QueryParser.parse tb st line =
      Ok {| current := if QueryParser.in_callbacks tb (table query)
                       then Some query else None;
            published := (published st ++ evs)%list |}).
    { rewrite (parse_header _ _ _ t Ht).
      unfold QueryParser.start, QueryParser._handle_completion.
      destruct Hcur as [[-> ->]|(q & ev & -> & Hf & ->)]; simpl.
      - by rewrite app_nil_r.
      - rewrite Hf. done. }
    split; [done|]. intros Hno.
    assert (Htable : table query = None /\ invalid query = true).
    { unfold query, QueryBase.init, QueryBase._parse_initial_line. simpl.
      by rewrite Hno. }
    destruct Htable as [Htable Hinv].
    rewrite Htable in Hparse. simpl in Hparse.
    repeat split; [done..|].
    intros rest Hrest. simpl. rewrite Hparse. simpl.
    by apply parse_all_untracked.
  - intros q e Hq Hf. rewrite (parse_header _ _ _ t Ht).
    unfold QueryParser.start, QueryParser._handle_completion.
    rewrite Hq. simpl. by rewrite Hf.
Qed.

End ParserFacts.

(** ** The parser on the scenarios *)

Example insert_scenario :
  Scenario.feed_and_finish
    ["INSERT INTO `db1`.`t1`"; "SET"; "  @1=42"; "  @2='hello'"] =
  Ok {| current := None;
        published := [Insert "db1.t1"
                        {[ "id" := PyInt 42; "name" := PyUnicode "hello" ]}] |}.
Proof. reflexivity. Qed.

Example short_insert_fed :
  Scenario.feed ["INSERT INTO `db1`.`t1`"; "SET"; "  @1=42"] =
  Ok {| current := Some Scenario.short_insert; published := [] |}.
Proof. reflexivity. Qed.

(** C1. On the lines [INSERT INTO `db1`.`t1`], [SET], [  @1=42],
    [  @2='hello'], [garbage] the event in progress is marked invalid by the
    last line, and yet both ways out of it, [finish()] and a new header
    line, translate its columns and publish its job: the flag [invalid] is
    written and never read. *)
Theorem invalid_event_is_published :
  exists q,
    Scenario.feed ["INSERT INTO `db1`.`t1`"; "SET"; "  @1=42";
                   "  @2='hello'"; "garbage"] =
      Ok {| current := Some q; published := [] |}
    /\ invalid q = true
    /\ QueryParser.finish Scenario.tables
         {| current := Some q; published := [] |} =
       Ok {| current := None;
             published := [Insert "db1.t1"
                             {[ "id" := PyInt 42;
                                "name" := PyUnicode "hello" ]}] |}
    /\ published <$>
         QueryParser.parse (H := Scenario.runtime) Scenario.tables
           {| current := Some q; published := [] |} "DELETE FROM `db1`.`t1`" =
       Ok [Insert "db1.t1"
             {[ "id" := PyInt 42; "name" := PyUnicode "hello" ]}].
Proof. eexists. repeat split; reflexivity. Qed.

(** C2, the claim as stated fails: on the lines [INSERT INTO `db1`.`t1`],
    [SET], [  @1=42] the positional list has one value and the vector of
    [db1.t1] two names, and the job is published, with the key set [id]. *)
Lemma short_list_is_published :
  Scenario.feed_and_finish ["INSERT INTO `db1`.`t1`"; "SET"; "  @1=42"] =
    Ok {| current := None;
          published := [Insert "db1.t1" {[ "id" := PyInt 42 ]}] |}
  /\ dom ({[ "id" := PyInt 42 ]} : gmap string PyValue) <>
     list_to_set ["id"; "name"].
Proof.
  split; [reflexivity|].
  intros E.
  assert (Hin : "name" ∈ (list_to_set ["id"; "name"] : gset string))
    by set_solver.
  rewrite <- E in Hin. set_solver.
Qed.

Lemma finish_key_sets_witness :
  exists ev,
    QueryParser.query_finish Scenario.tables Scenario.short_insert = Ok ev /\
    event_table ev = "db1.t1" /\
    (event_maps ev).*1 = translated (type Scenario.short_insert) /\
    Forall (fun km =>
              exists vals,
                values Scenario.short_insert !! km.1 = Some vals /\
                dom km.2 =
                  list_to_set (take (List.length vals) ["id"; "name"]))
           (event_maps ev).
Proof.
  apply (proj1 (proj2 (finish_key_sets Scenario.tables Scenario.short_insert))
           "db1.t1" ["id"; "name"]).
  - reflexivity.
  - reflexivity.
  - intros k Hk. change (k ∈ ["SET"]) in Hk.
    apply list_elem_of_singleton in Hk as ->.
    exists [PyInt 42]. split; [reflexivity|simpl; lia].
Defined.

(** C3, the claim as stated fails: the column lines [  @2=7] and [  @1=8],
    fed in this order after [SET], skip index 1 and then go backwards; the
    event is not marked invalid and holds both values, in feed order. *)
Lemma out_of_order_index_accepted :
  exists q,
    Scenario.feed ["INSERT INTO `db1`.`t1`"; "SET"; "  @2=7"; "  @1=8"] =
      Ok {| current := Some q; published := [] |}
    /\ invalid q = false
    /\ values q !! "SET" = Some [PyInt 7; PyInt 8].
Proof. eexists. repeat split; reflexivity. Qed.

Lemma column_index_not_examined_witness :
  QueryBase.parse (H := Scenario.runtime) Scenario.tables
    Scenario.short_insert (column_line "7" "8") =
  QueryBase.parse (H := Scenario.runtime) Scenario.tables
    Scenario.short_insert (column_line "1" "8").
Proof.
  apply (column_index_not_examined (H := Scenario.runtime) Scenario.tables
           Scenario.short_insert "7" "8"); [reflexivity|discriminate|reflexivity].
Defined.

(** C4, the claim as stated fails: a column line fed right after the
    header of an [INSERT] or of a [DELETE] for the registered table raises
    [KeyError]; nothing is appended. *)
Lemma column_after_header_raises :
  Scenario.feed ["INSERT INTO `db1`.`t1`"; "  @1=42"] = Raise KeyError
  /\ Scenario.feed ["DELETE FROM `db1`.`t1`"; "  @1=42"] = Raise KeyError.
Proof. split; reflexivity. Qed.

Lemma phase_set_by_keyword_line_witness :
  let q0 := QueryBase.init INSERT "INSERT INTO `db1`.`t1`" in
  current_value_type q0 = None
  /\ QueryBase.parse (H := Scenario.runtime) Scenario.tables q0
       (column_line "1" "42") = Raise KeyError
  /\ forall k, k = "SET" \/ k = "WHERE" ->
       exists q1 q2,
         QueryBase.parse (H := Scenario.runtime) Scenario.tables q0 k = Ok q1 /\
         current_value_type q1 = Some k /\
         QueryBase.parse (H := Scenario.runtime) Scenario.tables q1
           (column_line "1" "42") = Ok q2 /\
         values q2 = <[k := [PyInt 42]]> (values q0) /\
         invalid q2 = invalid q0.
Proof.
  apply (phase_set_by_keyword_line (H := Scenario.runtime) Scenario.tables
           INSERT "INSERT INTO `db1`.`t1`" "1" "42" (PyInt 42));
    [reflexivity|discriminate|reflexivity|reflexivity].
Defined.

Lemma header_prefix_starts_query_witness :
  QueryParser.parse_all (H := Scenario.runtime) Scenario.tables
    {| current := Some Scenario.short_insert; published := [] |}
    ["INSERT IGNORE INTO `db1`.`t1`"; "SET"; "  @1=1"] =
  Ok {| current := None;
        published := [Insert "db1.t1" {[ "id" := PyInt 42 ]}] |}.
Proof.
  destruct (header_prefix_starts_query (H := Scenario.runtime)
              Scenario.tables
              {| current := Some Scenario.short_insert; published := [] |}
              "INSERT IGNORE INTO `db1`.`t1`" INSERT eq_refl)
    as [Hstart _].
  apply (Hstart [Insert "db1.t1" {[ "id" := PyInt 42 ]}]).
  - right. eexists _, _. repeat split; reflexivity.
  - reflexivity.
  - repeat constructor.
Defined.

(** C10, the claim as stated fails: the event in progress holds three
    values for the two columns of [db1.t1]; the line [INSERT IGNORE INTO
    `db1`.`t1`] makes its completion raise [IndexError], so that no job is
    published and no event is started. *)
Lemma header_after_long_list_raises :
  (exists q,
     Scenario.feed ["INSERT INTO `db1`.`t1`"; "SET"; "  @1=1"; "  @2='a'";
                    "  @3=3"] =
       Ok {| current := Some q; published := [] |}
     /\ QueryParser.parse (H := Scenario.runtime) Scenario.tables
          {| current := Some q; published := [] |}
          "INSERT IGNORE INTO `db1`.`t1`" = Raise IndexError)
  /\ Scenario.feed ["INSERT INTO `db1`.`t1`"; "SET"; "  @1=1"; "  @2='a'";
                    "  @3=3"; "INSERT IGNORE INTO `db1`.`t1`"] =
     Raise IndexError.
Proof. split; [eexists; split; reflexivity|reflexivity]. Qed.

(** ** The streaming loop of [process_binlog] *)

Section StreamFacts.
Context `{PyRuntime}.


(** The loop body never calls [finish()], and acts on the parser as
    feeding it the line does, when the line is one the parser is fed. *)
Lemma loop_body_parser (tb : Tables) (l : string) (s : BinlogParser.Sweep) :
  finish_calls (BinlogParser.loop_body tb l s).1 = 0%nat /\
  BinlogParser.p <$> (BinlogParser.loop_body tb l s).2 =
  QueryParser.parse_all tb (BinlogParser.p s)
    (option_list (BinlogParser.fed l)).
Proof.
  unfold BinlogParser.loop_body, BinlogParser.fed.
  destruct (PyString.startswith "### " l).
  - split; [done|].
    set (arg := PyString.rstrip PyString.is_crlf (PyString.drop 4 l)).
    simpl. destruct (QueryParser.parse tb (BinlogParser.p s) arg); reflexivity.
  - destruct (PyString.startswith "# at " l); done.
Qed.

Lemma fed_lines_cons (d : BinlogParser.Delivery)
  (rest : list BinlogParser.Delivery) :
  fed_lines (d :: rest) =
  (option_list (BinlogParser.fed (BinlogParser.line d)) ++ fed_lines rest)%list.
Proof.
  unfold fed_lines. cbn [omap list_omap].
  by destruct (BinlogParser.fed (BinlogParser.line d)).
Qed.

Lemma parse_all_app (tb : Tables) (ls ls' : list string) :
  forall st : ParserState,
    QueryParser.parse_all tb st (ls ++ ls') =
    (st' ← QueryParser.parse_all tb st ls; QueryParser.parse_all tb st' ls').
Proof.
  induction ls as [|l ls IH]; intros st; [done|].
  cbn [app QueryParser.parse_all].
  destruct (QueryParser.parse tb st l); [apply IH|done].
Qed.




Lemma stream_as_parser (tb : Tables) (lines : list BinlogParser.Delivery) :
  Forall (fun d => BinlogParser.done d = false) lines ->
  forall (s : BinlogParser.Sweep) (cs : list BinlogParser.Call),
    let r := BinlogParser.stream tb lines s cs in
    match st ← QueryParser.parse_all tb (BinlogParser.p s) (fed_lines lines);
          QueryParser.finish tb st with
    | Ok st' =>
        BinlogParser.exit r = BinlogParser.Completed /\
        BinlogParser.p (BinlogParser.sweep r) = st'
    | Raise e =>
        BinlogParser.exit r =
          (if is_Exception e then BinlogParser.Caught e
           else BinlogParser.Propagated e)
    end.
Proof.
  induction 1 as [|d rest Hd _ IH]; intros s cs.
  - cbn [BinlogParser.stream]. unfold fed_lines. simpl.
    by destruct (QueryParser.finish tb (BinlogParser.p s)).
  - cbn [BinlogParser.stream]. rewrite Hd, fed_lines_cons, parse_all_app.
    destruct (loop_body_parser tb (BinlogParser.line d) s) as [_ Hp].
    rewrite <- Hp.
    destruct (BinlogParser.loop_body tb (BinlogParser.line d) s)
      as [made [s'|e]]; cbn [snd].
    + apply IH.
    + done.
Qed.




End StreamFacts.


(** The design document's scenarios 4 and 5 on the loop: read to the end,
    the two jobs are published in order and the position file holds 200;
    with the flag set after the first marker, nothing is published and the
    file holds 100. *)
Example cursor_advance_scenario :
  let r := Scenario.run (Scenario.running <$> Scenario.output4) in
  BinlogParser.exit r = BinlogParser.Completed
  /\ published (BinlogParser.p (BinlogParser.sweep r)) =
     [Insert "db1.t1" {[ "id" := PyInt 1 ]};
      Insert "db1.t1" {[ "id" := PyInt 2 ]}]
  /\ data (BinlogParser.writepos (BinlogParser.sweep r)) = "200".
Proof. repeat split; reflexivity. Qed.

Example shutdown_scenario :
  let r := Scenario.run
             (Scenario.running ("# at 100" ++ Scenario.line_feed) ::
              (Scenario.stopping <$> tail Scenario.output4)) in
  BinlogParser.exit r = BinlogParser.Broke
  /\ published (BinlogParser.p (BinlogParser.sweep r)) = []
  /\ data (BinlogParser.writepos (BinlogParser.sweep r)) = "100".
Proof. repeat split; reflexivity. Qed.

(** ** The position file *)

(** After [write_position] the file holds the position and nothing else,
    whatever it held before. *)
Lemma write_position_data (f : FileObject) (pos : string) :
  data (BinlogParser.write_position f pos) = pos.
Proof.
  unfold BinlogParser.write_position, BinlogParser.write,
    BinlogParser.truncate, BinlogParser.seek_start. simpl.
  assert (Hsub : forall s, String.substring 0 0 s = "") by (by intros []).
  assert (Hdrop : forall n, PyString.drop n "" = "") by (by intros []).
  rewrite !Hsub. simpl. rewrite Hdrop.
  induction pos as [|c pos IH]; simpl; [done|]. by rewrite IH.
Qed.

(** C8 (as amended). [read_position] returns the contents of the file
    without their trailing whitespace when the file can be read and
    something is left of them, the string 0 when nothing is left or when
    the file is missing, and lets every other I/O error through. *)
Theorem read_position_cases (fs : gmap string Node) (pos_file : string) :
  (forall contents,
     fs !! pos_file = Some (Readable contents) ->
     BinlogParser.read_position fs pos_file =
     Ok (if decide (PyString.rstrip PyString.is_whitespace contents = "")
         then "0"
         else PyString.rstrip PyString.is_whitespace contents))
  /\ (fs !! pos_file = None ->
      BinlogParser.read_position fs pos_file = Ok "0")
  /\ (forall errno,
        fs !! pos_file = Some (Failing errno) -> errno <> 2 ->
        BinlogParser.read_position fs pos_file = Raise (IOError errno)).
Proof.
  unfold BinlogParser.read_position, BinlogParser.open_read.
  split_and!.
  - intros contents ->. by case_decide.
  - by intros ->.
  - intros errno -> Hne. by rewrite decide_False.
Qed.

Lemma read_position_cases_witness :
  BinlogParser.read_position
    {[ "binlogpos.000001" := Readable ("4711" ++ Scenario.line_feed);
       "binlogpos.000002" := Failing 13 ]}
    "binlogpos.000001" = Ok "4711"
  /\ BinlogParser.read_position
       {[ "binlogpos.000001" := Readable ("4711" ++ Scenario.line_feed);
          "binlogpos.000002" := Failing 13 ]}
       "binlogpos.000003" = Ok "0"
  /\ BinlogParser.read_position
       {[ "binlogpos.000001" := Readable ("4711" ++ Scenario.line_feed);
          "binlogpos.000002" := Failing 13 ]}
       "binlogpos.000002" = Raise (IOError 13).
Proof.
  split_and!.
  - apply (proj1 (read_position_cases _ "binlogpos.000001")
             ("4711" ++ Scenario.line_feed)). reflexivity.
  - apply (read_position_cases _ "binlogpos.000003"). reflexivity.
  - apply (read_position_cases _ "binlogpos.000002"); [reflexivity|lia].
Defined.

(** C8, the claim as stated fails: the position file exists and is empty,
    as [process_binlog] leaves it between opening it for writing and the
    first write; its contents without trailing whitespace are the empty
    string, and [read_position] returns the string 0. *)
Lemma empty_position_file_reads_zero :
  BinlogParser.open_read {[ "binlogpos.000001" := Readable "" ]}
    "binlogpos.000001" = Ok ""
  /\ BinlogParser.read_position {[ "binlogpos.000001" := Readable "" ]}
       "binlogpos.000001" = Ok "0"
  /\ BinlogParser.read_position {[ "binlogpos.000001" := Readable "" ]}
       "binlogpos.000001" <> Ok (PyString.rstrip PyString.is_whitespace "").
Proof. split_and!; [reflexivity|reflexivity|discriminate]. Qed.

(** ** The callback registry *)

Section RegistryFacts.
Context {World Args Kwargs : Type}.
Local Abbreviation Registry := (MygrateCallbacks.Registry World Args Kwargs).

(** A fresh registry has the default error handler, and registering
    callbacks keeps the handler. *)
Lemma register_error_handler_kept (self : Registry) (table action : string)
  (callback : MygrateCallbacks.Callback World Args Kwargs) :
  MygrateCallbacks.error_handler
    (MygrateCallbacks.register self table action callback) =
  MygrateCallbacks.error_handler self.
Proof. done. Qed.

Lemma register_binding (self : Registry) (table action : string)
  (callback : MygrateCallbacks.Callback World Args Kwargs) :
  exists by_action,
    MygrateCallbacks.callbacks
      (MygrateCallbacks.register self table action callback) !! table =
      Some by_action /\
    by_action !! action = Some callback.
Proof.
  eexists. unfold MygrateCallbacks.register. simpl.
  split; [apply lookup_insert_eq|apply lookup_insert_eq].
Qed.

(** C9. [execute] does nothing when the table has no callbacks or none
    for the action: the world is as before and nothing is raised.
    Otherwise it calls the callback that is bound; when the callback
    returns, so does [execute], and when it raises an [Exception], the
    installed error handler is called with the table, the action, the
    positional and the keyword arguments, inside the handling of that
    exception, and what it returns or raises is what [execute] returns or
    raises.  The default error handler raises the exception being handled
    again and does nothing else. *)
Theorem execute_contract (self : Registry) (table action : string)
  (args : Args) (kwargs : Kwargs) (w : World) :
  (MygrateCallbacks.callbacks self !! table = None ->
   MygrateCallbacks.execute self table action args kwargs w = (w, None))
  /\ (forall by_action,
        MygrateCallbacks.callbacks self !! table = Some by_action ->
        by_action !! action = None ->
        MygrateCallbacks.execute self table action args kwargs w = (w, None))
  /\ (forall by_action callback,
        MygrateCallbacks.callbacks self !! table = Some by_action ->
        by_action !! action = Some callback ->
        (forall w',
           callback table args kwargs w = (w', None) ->
           MygrateCallbacks.execute self table action args kwargs w =
             (w', None)) /\
        (forall w' e,
           callback table args kwargs w = (w', Some e) ->
           is_Exception e = true ->
           MygrateCallbacks.execute self table action args kwargs w =
             MygrateCallbacks.error_handler self e table action args kwargs w'))
  /\ (forall e w',
        MygrateCallbacks._default_error_handler
          (World := World) (Args := Args) (Kwargs := Kwargs)
          e table action args kwargs w' = (w', Some e))
  /\ (forall e w',
        MygrateCallbacks.error_handler
          (MygrateCallbacks.init
             (World := World) (Args := Args) (Kwargs := Kwargs))
          e table action args kwargs w' = (w', Some e)).
Proof.
  unfold MygrateCallbacks.execute. split_and!.
  - by intros ->.
  - intros by_action Ht Ha. rewrite Ht. cbv beta iota.
    unfold MygrateCallbacks.Callback in *. by rewrite Ha.
  - intros by_action callback Ht Ha. rewrite Ht. cbv beta iota.
    unfold MygrateCallbacks.Callback in *. rewrite Ha. split.
    + by intros w' ->.
    + intros w' e -> He. by rewrite He.
  - done.
  - done.
Qed.

End RegistryFacts.

Lemma execute_contract_witness :
  MygrateCallbacks.execute Scenario.registry "db1.other" "INSERT"
    [PyInt 1] () ["start"] = (["start"], None)
  /\ MygrateCallbacks.execute Scenario.registry "db1.t1" "UPDATE"
       [PyInt 1] () ["start"] = (["start"], None)
  /\ MygrateCallbacks.execute Scenario.registry "db1.t1" "INSERT"
       [PyInt 1] () ["start"] = (["start"; "insert db1.t1"], None)
  /\ MygrateCallbacks.execute Scenario.registry "db1.t1" "DELETE"
       [PyInt 1] () ["start"] =
     MygrateCallbacks.error_handler Scenario.registry ValueError
       "db1.t1" "DELETE" [PyInt 1] () ["start"; "failing db1.t1"].
Proof.
  split_and!.
  - apply (execute_contract Scenario.registry "db1.other" "INSERT").
    reflexivity.
  - destruct (execute_contract Scenario.registry "db1.t1" "UPDATE"
                [PyInt 1] () ["start"]) as (_ & Hnone & _).
    eapply Hnone; reflexivity.
  - destruct (execute_contract Scenario.registry "db1.t1" "INSERT"
                [PyInt 1] () ["start"]) as (_ & _ & Hbound & _).
    eapply Hbound; reflexivity.
  - destruct (execute_contract Scenario.registry "db1.t1" "DELETE"
                [PyInt 1] () ["start"]) as (_ & _ & Hbound & _).
    eapply Hbound; reflexivity.
Defined.

(** A callback that raises, under the default handler: the exception goes
    through [execute]. *)
Example default_handler_scenario :
  MygrateCallbacks.execute Scenario.registry "db1.t1" "DELETE"
    [PyInt 1] () ["start"] =
  (["start"; "failing db1.t1"], Some ValueError).
Proof. reflexivity. Qed.

(** ** The configuration provider *)

Section ConfigFacts.
Context `{Os}.

Lemma get_other_section (parser : gmap string (gmap string string))
  (section other option : string) (options : gmap string string) :
  section <> other ->
  MygrateConfig.get (<[section := options]> parser) other option =
  MygrateConfig.get parser other option.
Proof.
  intros Hne. unfold MygrateConfig.get. by rewrite lookup_insert_ne.
Qed.

(** C5 (as amended). The broker endpoint is read from the key
    [broker_url] of the section [celery], the tracking directory from the
    key [tracking_dir] of the section [binlog] and the index path from the
    key [binlog_index] of the section [mysql]; what the sections [queue],
    [tracker] and [database] hold is never read. *)
Theorem config_sections_read (parser : gmap string (gmap string string))
  (fs : FileSystem) :
  (forall url,
     MygrateConfig.get parser "celery" "broker_url" = Ok url ->
     MygrateConfig.get_celery_info parser = Ok url)
  /\ (forall dir,
        MygrateConfig.get parser "binlog" "tracking_dir" = Ok dir ->
        path_isdir fs (expanduser dir) = true ->
        MygrateConfig.get_tracking_dir fs parser = (fs, Ok (expanduser dir)))
  /\ (forall index delay,
        MygrateConfig.get parser "mysql" "binlog_index" = Ok index ->
        path_exists fs index = true ->
        float (match MygrateConfig.get parser "binlog" "tracking_delay" with
               | Ok text => text
               | Raise _ => "1.0"
               end) = Some delay ->
        MygrateConfig.get_mysql_binlog_info fs parser = Ok (index, delay))
  /\ (forall section options,
        section = "queue" \/ section = "tracker" \/ section = "database" ->
        MygrateConfig.get_celery_info (<[section := options]> parser) =
          MygrateConfig.get_celery_info parser /\
        MygrateConfig.get_tracking_dir fs (<[section := options]> parser) =
          MygrateConfig.get_tracking_dir fs parser /\
        MygrateConfig.get_mysql_binlog_info fs (<[section := options]> parser) =
          MygrateConfig.get_mysql_binlog_info fs parser).
Proof.
  split_and!.
  - intros url Hurl. unfold MygrateConfig.get_celery_info. by rewrite Hurl.
  - intros dir Hdir Hisdir. unfold MygrateConfig.get_tracking_dir.
    by rewrite Hdir, Hisdir.
  - intros index delay Hindex Hexists Hfloat.
    unfold MygrateConfig.get_mysql_binlog_info. rewrite Hindex. simpl.
    rewrite Hexists.
    unfold MygrateConfig.get in *.
    destruct (parser !! "binlog") as [options|]; simpl in *.
    + destruct (options !! "tracking_delay"); simpl in *; by rewrite Hfloat.
    + by rewrite Hfloat.
  - intros section options Hsection.
    assert (Hget : forall other option,
              other = "celery" \/ other = "binlog" \/ other = "mysql" ->
              MygrateConfig.get (<[section := options]> parser) other option =
              MygrateConfig.get parser other option).
    { intros other option Hother. apply get_other_section.
      destruct Hsection as [->|[->| ->]], Hother as [->|[->| ->]];
        discriminate. }
    unfold MygrateConfig.get_celery_info, MygrateConfig.get_tracking_dir,
      MygrateConfig.get_mysql_binlog_info.
    rewrite !Hget by tauto. done.
Qed.

End ConfigFacts.

Lemma config_sections_read_witness :
  MygrateConfig.get_celery_info Scenario.code_config = Ok "amqp://broker"
  /\ MygrateConfig.get_tracking_dir (H := Scenario.os) Scenario.disk
       Scenario.code_config = (Scenario.disk, Ok "/var/lib/mygrate")
  /\ MygrateConfig.get_mysql_binlog_info (H := Scenario.os) Scenario.disk
       Scenario.code_config = Ok ("/data/mysql-bin.index", "1.0").
Proof.
  destruct (config_sections_read (H := Scenario.os) Scenario.code_config
              Scenario.disk) as (Hbroker & Hdir & Hindex & _).
  split_and!.
  - apply Hbroker. reflexivity.
  - apply (Hdir "/var/lib/mygrate"); reflexivity.
  - apply Hindex; reflexivity.
Defined.

(** C5, the claim as stated fails: with the three options under the
    section names of the configuration table, no broker endpoint is found,
    the tracking directory is the default one and the index path is the
    default one, which this disk does not hold. *)
Lemma table_sections_not_read :
  MygrateConfig.get_celery_info Scenario.table_config =
    Raise (MygrateConfigError
             "Please specify the celery::broker_url configuration option.")
  /\ (MygrateConfig.get_tracking_dir (H := Scenario.os) Scenario.disk
        Scenario.table_config).2 = Ok "/home/mygrate/.binlog-tracking"
  /\ MygrateConfig.get_mysql_binlog_info (H := Scenario.os) Scenario.disk
       Scenario.table_config =
     Raise (MygrateConfigError
              "Invalid binlog index file: /var/log/mysql/mysql-bin.index").
Proof. split_and!; reflexivity. Qed.

(* ===================================================================== *)
(** * Part III: further properties of the code                           *)
(* ===================================================================== *)

(** ** Positional values and column names *)

Lemma translate_from_lookup (names : list string) (vals : list PyValue) :
  NoDup names ->
  forall (i : nat) (d m : gmap string PyValue),
    QueryBase.translate_from names i vals d = Ok m ->
    (forall j v, vals !! j = Some v ->
       exists key, names !! (i + j)%nat = Some key /\ m !! key = Some v) /\
    (forall key, key ∉ take (List.length vals) (drop i names) ->
       m !! key = d !! key).
Proof.
  intros Hnd. induction vals as [|val rest IH]; intros i d m; simpl.
  - intros [= <-]. split; [by intros j v|done].
  - destruct (names !! i) as [key|] eqn:Ei; [|done].
    intros Hm. apply IH in Hm as [Hpos Hframe].
    rewrite (drop_S _ _ _ Ei). simpl.
    assert (Hfresh : key ∉ take (List.length rest) (drop (S i) names)).
    { intros Hin. apply list_elem_of_lookup in Hin as [j Hj].
      apply lookup_take_Some in Hj as [Hj _].
      rewrite lookup_drop in Hj.
      pose proof (NoDup_lookup _ _ _ _ Hnd Ei Hj). lia. }
    split.
    + intros [|j] v Hv; simpl in Hv.
      * injection Hv as <-. exists key. rewrite Nat.add_0_r.
        split; [done|]. rewrite (Hframe key Hfresh). apply lookup_insert_eq.
      * destruct (Hpos j v Hv) as (key' & Hk & Hmk).
        exists key'. split; [|done]. by replace (i + S j)%nat with (S i + j)%nat by lia.
    + intros key' Hnot. apply not_elem_of_cons in Hnot as [Hne Hnot].
      rewrite (Hframe key' Hnot). by rewrite lookup_insert_ne.
Qed.

(** X1. In the job of a completed query, each column map gives the name
    at position [j] of the vector the value at position [j] of the
    positional list, when the names of the vector are distinct. *)
Theorem finish_positional_values (tb : Tables) (q : Query) (ev : Event)
  (names : list string) :
  QueryParser.query_finish tb q = Ok ev ->
  column_names tb !! event_table ev = Some names ->
  NoDup names ->
  Forall (fun km =>
            exists vals,
              values q !! km.1 = Some vals /\
              forall j v, vals !! j = Some v ->
                exists key, names !! j = Some key /\ km.2 !! key = Some v)
         (event_maps ev).
Proof.
  intros Hf Hnames Hnd.
  destruct (finish_ok_key_sets tb q ev Hf) as (names' & Ht & Hn' & _).
  assert (names' = names) as -> by congruence.
  revert Hf.
  unfold QueryParser.query_finish, InsertQuery.finish, UpdateQuery.finish,
    DeleteQuery.finish.
  rewrite Ht. simpl. rewrite Hn'. simpl.
  assert (Hmap : forall k vals m,
            values q !! k = Some vals ->
            QueryBase.translate names vals = Ok m ->
            exists vals,
              values q !! (k, m).1 = Some vals /\
              forall j v, vals !! j = Some v ->
                exists key, names !! j = Some key /\ (k, m).2 !! key = Some v).
  { intros k vals m Hk Hm. exists vals. split; [done|].
    apply (translate_from_lookup names vals Hnd) in Hm as [Hpos _].
    exact Hpos. }
  destruct (type q).
  - destruct (values q !! "SET") as [sl|] eqn:Es; simpl; [|done].
    destruct (QueryBase.translate names sl) as [sm|] eqn:Hs; simpl; [|done].
    intros [= <-]. simpl. repeat constructor. by eapply Hmap.
  - destruct (values q !! "WHERE") as [wl|] eqn:Ew; simpl; [|done].
    destruct (QueryBase.translate names wl) as [wm|] eqn:Hw; simpl; [|done].
    destruct (values q !! "SET") as [sl|] eqn:Es; simpl; [|done].
    destruct (QueryBase.translate names sl) as [sm|] eqn:Hs; simpl; [|done].
    intros [= <-]. simpl. repeat constructor; by eapply Hmap.
  - destruct (values q !! "WHERE") as [wl|] eqn:Ew; simpl; [|done].
    destruct (QueryBase.translate names wl) as [wm|] eqn:Hw; simpl; [|done].
    intros [= <-]. simpl. repeat constructor. by eapply Hmap.
Qed.

Lemma finish_positional_values_witness :
  Forall (fun km =>
            exists vals,
              values Scenario.short_insert !! km.1 = Some vals /\
              forall j v, vals !! j = Some v ->
                exists key, ["id"; "name"] !! j = Some key /\
                            km.2 !! key = Some v)
         [("SET", ({[ "id" := PyInt 42 ]} : gmap string PyValue))].
Proof.
  apply (finish_positional_values Scenario.tables Scenario.short_insert
           (Insert "db1.t1" {[ "id" := PyInt 42 ]}) ["id"; "name"]).
  - reflexivity.
  - reflexivity.
  - repeat constructor; set_solver.
Defined.

(** X2. A query for a table with a column-name vector, holding both
    positional lists, none of the translated ones longer than the vector,
    is completed without exception: its job is published. *)
Theorem finish_succeeds_when_lists_fit (tb : Tables) (q : Query)
  (t : string) (names : list string) :
  table q = Some t ->
  column_names tb !! t = Some names ->
  (forall k, k ∈ translated (type q) ->
     exists vals, values q !! k = Some vals /\
                  (List.length vals <= List.length names)%nat) ->
  exists ev, QueryParser.query_finish tb q = Ok ev /\ event_table ev = t.
Proof.
  intros Ht Hn Hfit.
  unfold QueryParser.query_finish, InsertQuery.finish, UpdateQuery.finish,
    DeleteQuery.finish.
  rewrite Ht. simpl. rewrite Hn. simpl.
  assert (Hone : forall k, k ∈ translated (type q) ->
            exists vals m, values q !! k = Some vals /\
                           QueryBase.translate names vals = Ok m).
  { intros k Hk. destruct (Hfit k Hk) as (vals & Hv & Hlen).
    destruct (translate_total names vals Hlen) as [m Hm]. by exists vals, m. }
  destruct (type q); simpl in Hone.
  - destruct (Hone "SET") as (sl & sm & -> & Hs); [set_solver|].
    simpl. rewrite Hs. by eexists.
  - destruct (Hone "WHERE") as (wl & wm & -> & Hw); [set_solver|].
    destruct (Hone "SET") as (sl & sm & -> & Hs); [set_solver|].
    simpl. rewrite Hw. simpl. rewrite Hs. by eexists.
  - destruct (Hone "WHERE") as (wl & wm & -> & Hw); [set_solver|].
    simpl. rewrite Hw. by eexists.
Qed.

Lemma finish_succeeds_when_lists_fit_witness :
  exists ev,
    QueryParser.query_finish Scenario.tables Scenario.short_insert = Ok ev /\
    event_table ev = "db1.t1".
Proof.
  apply (finish_succeeds_when_lists_fit Scenario.tables Scenario.short_insert
           "db1.t1" ["id"; "name"]); [reflexivity|reflexivity|].
  intros k Hk. apply list_elem_of_singleton in Hk as ->.
  exists [PyInt 42]. split; [reflexivity|simpl; lia].
Defined.

(** ** What the parser publishes *)

Section PublishFacts.
Context `{PyRuntime}.

Lemma query_parse_table (tb : Tables) (q q' : Query) (line : string) :
  QueryBase.parse tb q line = Ok q' ->
  table q' = table q /\ type q' = type q.
Proof.
  unfold QueryBase.parse. case_decide; [by intros [= <-]|].
  destruct (PyString.match_column line) as [[idx value]|]; [|by intros [= <-]].
  destruct (QueryBase._parse_value _ _); simpl; [|done].
  destruct (QueryBase.getitem _ _); simpl; [|done].
  destruct (current_value_type q); [|done]. by intros [= <-].
Qed.

Lemma parse_tracked (tb : Tables) (st st' : ParserState) (line : string) :
  tracked tb st -> QueryParser.parse tb st line = Ok st' -> tracked tb st'.
Proof.
  intros Htr. destruct (header_type line) as [t|] eqn:Ht.
  - rewrite (parse_header _ _ _ t Ht). unfold QueryParser.start.
    destruct (QueryParser._handle_completion tb st) as [st1|]; simpl; [|done].
    intros [= <-] q. simpl.
    destruct (QueryParser.in_callbacks tb _) eqn:Ein; [|done].
    intros [= <-]. unfold QueryParser.in_callbacks in Ein.
    destruct (table (QueryBase.init t line)) as [tab|]; [|done].
    exists tab. split; [done|]. by apply bool_decide_eq_true in Ein.
  - rewrite parse_not_header by done.
    destruct (current st) as [q|] eqn:Eq; simpl.
    + destruct (QueryBase.parse tb q line) as [q'|] eqn:Ep; simpl; [|done].
      intros [= <-] q0. simpl. intros [= <-].
      apply query_parse_table in Ep as [-> _]. by apply Htr.
    + intros [= <-]. exact Htr.
Qed.

Lemma completion_published (tb : Tables) (st st' : ParserState) :
  tracked tb st ->
  QueryParser._handle_completion tb st = Ok st' ->
  current st' = current st /\
  exists evs,
    published st' = (published st ++ evs)%list /\
    (List.length evs <= 1)%nat /\
    (current st = None -> evs = []) /\
    Forall (fun ev => is_Some (callbacks tb !! event_table ev) /\
                      is_Some (column_names tb !! event_table ev)) evs.
Proof.
  intros Htr. unfold QueryParser._handle_completion.
  destruct (current st) as [q|] eqn:Eq; simpl.
  - destruct (QueryParser.query_finish tb q) as [ev|] eqn:Ef; simpl; [|done].
    intros [= <-]. simpl. split; [done|]. exists [ev].
    split_and!; [done|simpl; lia|done|].
    destruct (Htr q Eq) as (t & Ht & Hreg).
    destruct (finish_ok_key_sets tb q ev Ef) as (names & Ht' & Hn & _).
    repeat constructor; [|by rewrite Hn].
    assert (event_table ev = t) as -> by congruence. done.
  - intros [= <-]. split; [done|]. exists []. rewrite app_nil_r.
    split_and!; [done|simpl; lia|done|done].
Qed.

(** X3. Feeding lines only appends to the queue, at most one job for each
    line that starts a query and none for any other line, and every job
    appended is for a table that is registered and has a column-name
    vector. *)
Theorem parse_all_published (tb : Tables) (lines : list string) :
  forall st st' : ParserState,
    tracked tb st ->
    QueryParser.parse_all tb st lines = Ok st' ->
    tracked tb st' /\
    exists evs,
      published st' = (published st ++ evs)%list /\
      (List.length evs <=
       List.length (filter (fun l => is_Some (header_type l)) lines))%nat /\
      Forall (fun ev => is_Some (callbacks tb !! event_table ev) /\
                        is_Some (column_names tb !! event_table ev)) evs.
Proof.
  induction lines as [|l rest IH]; intros st st' Htr; simpl.
  - intros [= <-]. split; [done|]. exists []. rewrite app_nil_r.
    split_and!; [done|simpl; lia|done].
  - destruct (QueryParser.parse tb st l) as [st1|] eqn:Ep; simpl; [|done].
    intros Hrest.
    pose proof (parse_tracked tb st st1 l Htr Ep) as Htr1.
    destruct (IH st1 st' Htr1 Hrest) as (Htr' & evs' & Hpub' & Hlen' & Hall').
    split; [done|].
    assert (Hstep : exists evs1,
              published st1 = (published st ++ evs1)%list /\
              (List.length evs1 <=
               List.length (filter (fun l => is_Some (header_type l)) [l]))%nat /\
              Forall (fun ev => is_Some (callbacks tb !! event_table ev) /\
                        is_Some (column_names tb !! event_table ev)) evs1).
    { destruct (header_type l) as [t|] eqn:Ht.
      - rewrite (parse_header _ _ _ t Ht) in Ep. unfold QueryParser.start in Ep.
        destruct (QueryParser._handle_completion tb st) as [st0|] eqn:Ec;
          simpl in Ep; [|done].
        injection Ep as <-. simpl.
        destruct (completion_published tb st st0 Htr Ec)
          as (_ & evs1 & Hp & Hl & _ & Hall).
        exists evs1. split_and!; [done| |done].
        rewrite filter_cons_True by (by rewrite Ht). simpl. lia.
      - rewrite parse_not_header in Ep by done.
        exists []. rewrite app_nil_r. split_and!; [|simpl; lia|done].
        destruct (current st); simpl in Ep.
        + destruct (QueryBase.parse tb q l); simpl in Ep; [|done].
          by injection Ep as <-.
        + by injection Ep as <-. }
    destruct Hstep as (evs1 & Hp1 & Hl1 & Hall1).
    exists (evs1 ++ evs')%list. split_and!.
    + by rewrite Hpub', Hp1, app_assoc.
    + rewrite length_app.
      change (l :: rest) with ([l] ++ rest)%list.
      rewrite filter_app, length_app. lia.
    + by apply Forall_app.
Qed.

(** X4. [finish()] leaves the parser without a query in progress, so that
    a second [finish()] publishes nothing, and so does every line fed
    afterwards that starts no query. *)
Theorem finish_once (tb : Tables) (st st' : ParserState) :
  QueryParser.finish tb st = Ok st' ->
  current st' = None /\
  QueryParser.finish tb st' = Ok st' /\
  forall rest,
    Forall (fun l => header_type l = None) rest ->
    QueryParser.parse_all tb st' rest = Ok st'.
Proof.
  unfold QueryParser.finish at 1.
  destruct (QueryParser._handle_completion tb st) as [st1|]; simpl; [|done].
  intros [= <-]. split_and!; [done|done|].
  intros rest Hrest. by apply parse_all_untracked.
Qed.

End PublishFacts.

Lemma parse_all_published_witness :
  exists evs,
    [Insert "db1.t1" {[ "id" := PyInt 42 ]}] = ([] ++ evs)%list /\
    (List.length evs <=
     List.length (filter (fun l => is_Some (header_type l))
                    ["INSERT INTO `db1`.`t1`"; "SET"; "  @1=42";
                     "DELETE FROM `db1`.`other`"; "WHERE"; "  @1=1"]))%nat /\
    Forall (fun ev =>
              is_Some (callbacks Scenario.tables !! event_table ev) /\
              is_Some (column_names Scenario.tables !! event_table ev)) evs.
Proof.
  apply (parse_all_published (H := Scenario.runtime) Scenario.tables
           ["INSERT INTO `db1`.`t1`"; "SET"; "  @1=42";
            "DELETE FROM `db1`.`other`"; "WHERE"; "  @1=1"]
           QueryParser.init
           {| current := None;
              published := [Insert "db1.t1" {[ "id" := PyInt 42 ]}] |}).
  - intros q. discriminate.
  - reflexivity.
Defined.

Lemma finish_once_witness :
  QueryParser.finish Scenario.tables
    {| current := None;
       published := [Insert "db1.t1" {[ "id" := PyInt 42 ]}] |} =
  Ok {| current := None;
        published := [Insert "db1.t1" {[ "id" := PyInt 42 ]}] |}.
Proof.
  apply (finish_once (H := Scenario.runtime) Scenario.tables
           {| current := Some Scenario.short_insert; published := [] |}).
  reflexivity.
Defined.

(** ** Registering callbacks *)

Section RegisterFacts.
Context {World Args Kwargs : Type}.
Local Abbreviation Registry' := (MygrateCallbacks.Registry World Args Kwargs).
Local Abbreviation Callback' := (MygrateCallbacks.Callback World Args Kwargs).

(** X5. After [register(table, action, callback)], [execute] for that table
    and action calls that callback, whatever was bound before, and hands an
    [Exception] it raises to the error handler of the registry. *)
Theorem register_then_execute (self : Registry') (table action : string)
  (callback : Callback') (args : Args) (kwargs : Kwargs) (w : World) :
  MygrateCallbacks.execute
    (MygrateCallbacks.register self table action callback)
    table action args kwargs w =
  match callback table args kwargs w with
  | (w', None) => (w', None)
  | (w', Some e) =>
      if is_Exception e
      then MygrateCallbacks.error_handler self e table action args kwargs w'
      else (w', Some e)
  end.
Proof.
  unfold MygrateCallbacks.execute, MygrateCallbacks.register. simpl.
  rewrite lookup_insert_eq. cbv beta iota.
  unfold MygrateCallbacks.Callback in *. rewrite lookup_insert_eq.
  by destruct (callback table args kwargs w) as [w' [e|]].
Qed.

(** X6. Registering a callback changes nothing for any other table or
    action: [execute] behaves there as it did before. *)
Theorem register_other_binding (self : Registry') (table action : string)
  (callback : Callback') (table' action' : string)
  (args : Args) (kwargs : Kwargs) (w : World) :
  table' <> table \/ action' <> action ->
  MygrateCallbacks.execute
    (MygrateCallbacks.register self table action callback)
    table' action' args kwargs w =
  MygrateCallbacks.execute self table' action' args kwargs w.
Proof.
  intros Hne. unfold MygrateCallbacks.execute, MygrateCallbacks.register.
  simpl. destruct (decide (table' = table)) as [->|Ht].
  - destruct Hne as [?|Ha]; [done|].
    rewrite lookup_insert_eq. cbv beta iota.
    destruct (MygrateCallbacks.callbacks self !! table) as [m|]; simpl;
      unfold MygrateCallbacks.Callback in *;
      rewrite lookup_insert_ne by done; [done|].
    by rewrite lookup_empty.
  - by rewrite lookup_insert_ne.
Qed.

(** X7. The registered tables are the tables that have a binding, each
    listed once; a table is among them as soon as one callback has been
    registered for it. *)
Theorem registered_tables (self : Registry') (table action : string)
  (callback : Callback') :
  (forall t, t ∈ MygrateCallbacks.get_registered_tables self <->
             is_Some (MygrateCallbacks.callbacks self !! t))
  /\ NoDup (MygrateCallbacks.get_registered_tables self)
  /\ table ∈ MygrateCallbacks.get_registered_tables
               (MygrateCallbacks.register self table action callback).
Proof.
  unfold MygrateCallbacks.get_registered_tables.
  assert (Hin : forall (r : Registry') t,
            t ∈ (map_to_list (MygrateCallbacks.callbacks r)).*1 <->
            is_Some (MygrateCallbacks.callbacks r !! t)).
  { intros r t. rewrite list_elem_of_fmap. split.
    - intros ([t' m] & -> & Hm). apply elem_of_map_to_list in Hm. by eexists.
    - intros [m Hm]. exists (t, m). split; [done|].
      by apply elem_of_map_to_list. }
  split_and!.
  - apply Hin.
  - apply NoDup_fst_map_to_list.
  - apply Hin. simpl. rewrite lookup_insert_eq. by eexists.
Qed.

End RegisterFacts.

Lemma register_other_binding_witness :
  MygrateCallbacks.execute Scenario.registry "db1.t1" "INSERT"
    [PyInt 1] () ["start"] =
  MygrateCallbacks.execute
    (MygrateCallbacks.register MygrateCallbacks.init
       "db1.t1" "INSERT" (Scenario.logging "insert"))
    "db1.t1" "INSERT" [PyInt 1] () ["start"].
Proof.
  apply (register_other_binding
           (MygrateCallbacks.register MygrateCallbacks.init
              "db1.t1" "INSERT" (Scenario.logging "insert"))
           "db1.t1" "DELETE" (Scenario.failing ValueError)
           "db1.t1" "INSERT").
  right. discriminate.
Defined.

(** ** Table names *)

Lemma startswith_app (prefix rest : string) :
  PyString.startswith prefix (prefix ++ rest) = true.
Proof.
  induction prefix as [|c prefix IH]; simpl; [done|].
  by rewrite Ascii.eqb_refl, IH.
Qed.

Lemma drop_app_length (prefix rest : string) :
  PyString.drop (String.length prefix) (prefix ++ rest) = rest.
Proof. induction prefix as [|c prefix IH]; simpl; [by destruct rest|done]. Qed.

Lemma all_chars_app (f : ascii -> bool) (a b : string) :
  all_chars f (a ++ b) = (all_chars f a && all_chars f b)%bool.
Proof.
  induction a as [|c a IH]; simpl; [done|].
  by rewrite IH, andb_assoc.
Qed.

Lemma all_chars_weaken (f g : ascii -> bool) (s : string) :
  (forall c, f c = true -> g c = true) ->
  all_chars f s = true -> all_chars g s = true.
Proof.
  intros Hfg. induction s as [|c s IH]; simpl; [done|].
  intros [Hc Hs]%andb_prop. by rewrite (Hfg c Hc), IH.
Qed.

Lemma split_dot_no_dot (s : string) :
  all_chars (fun c => negb (Ascii.eqb c "."%char)) s = true ->
  PyString.split_dot s = [s].
Proof.
  induction s as [|c s IH]; simpl; [done|].
  intros [Hc Hs]%andb_prop.
  destruct (Ascii.eqb c "."); [done|]. by rewrite IH.
Qed.

Lemma split_dot_app (s rest : string) :
  all_chars (fun c => negb (Ascii.eqb c "."%char)) s = true ->
  PyString.split_dot (s ++ String "."%char rest) = s :: PyString.split_dot rest.
Proof.
  induction s as [|c s IH]; simpl; [done|].
  intros [Hc Hs]%andb_prop.
  destruct (Ascii.eqb c "."); [done|]. by rewrite IH.
Qed.

(** Splitting at the dots undoes joining with dots, for segments without
    dot. *)
Lemma split_dot_join_dot (segments : list string) :
  segments <> [] ->
  Forall (fun s => all_chars (fun c => negb (Ascii.eqb c "."%char)) s = true)
    segments ->
  PyString.split_dot (PyString.join_dot segments) = segments.
Proof.
  intros Hne Hall. unfold PyString.join_dot.
  induction Hall as [|s rest Hs Hrest IH]; [done|].
  destruct rest as [|s' rest].
  - simpl. by apply split_dot_no_dot.
  - change (String.concat "." (s :: s' :: rest))
      with (s ++ String "."%char (String.concat "." (s' :: rest))).
    rewrite split_dot_app by done. by rewrite IH.
Qed.

Lemma rstrip_none (f : ascii -> bool) (s : string) :
  all_chars (fun c => negb (f c)) s = true -> PyString.rstrip f s = s.
Proof.
  induction s as [|c s IH]; simpl; [done|].
  intros [Hc Hs]%andb_prop. rewrite (IH Hs).
  destruct s; [|done]. by apply negb_true_iff in Hc as ->.
Qed.

Lemma rstrip_app_one (f : ascii -> bool) (s : string) (c : ascii) :
  f c = true -> PyString.rstrip f (s ++ String c "") = PyString.rstrip f s.
Proof.
  intros Hc. induction s as [|a s IH]; simpl; [by rewrite Hc|].
  by rewrite IH.
Qed.

Lemma strip_backticked (ident : string) :
  all_chars ident_char ident = true ->
  PyString.strip PyString.is_backtick (backticked ident) = ident /\
  PyString.strip PyString.is_backtick ident = ident.
Proof.
  intros Hid.
  assert (Hnb : all_chars (fun c => negb (PyString.is_backtick c)) ident = true).
  { revert Hid. apply all_chars_weaken. intros c. unfold ident_char.
    rewrite !negb_orb. by intros [[_ ?]%andb_prop _]%andb_prop. }
  assert (Hl : PyString.lstrip PyString.is_backtick ident = ident).
  { destruct ident as [|c ident]; [done|]. simpl in *.
    apply andb_prop in Hnb as [Hc _]. by apply negb_true_iff in Hc as ->. }
  unfold PyString.strip, backticked. split.
  - change ("`" ++ ident ++ "`") with (String "`"%char (ident ++ "`")).
    cbn [PyString.lstrip]. change (PyString.is_backtick "`") with true.
    cbv iota.
    destruct ident as [|c ident].
    + reflexivity.
    + change (String c ident ++ "`") with (String c (ident ++ "`")) in *.
      simpl in Hnb. apply andb_prop in Hnb as [Hc Hnb].
      cbn [PyString.lstrip]. apply negb_true_iff in Hc. rewrite Hc.
      change (String c (ident ++ "`")) with (String c ident ++ "`").
      rewrite rstrip_app_one by done.
      apply rstrip_none. simpl. by rewrite Hc, Hnb.
  - rewrite Hl. by apply rstrip_none.
Qed.

(** X8. Table-name normalisation: a header whose table is written as
    segments joined by dots, each segment between backticks or bare, gives
    the query the table name made of the bare segments joined by dots, and
    does not mark it invalid. *)
Theorem header_table_normalised (t : QueryType) (written idents : list string) :
  idents <> [] ->
  Forall (fun ident => all_chars ident_char ident = true) idents ->
  Forall2 (fun w ident => w = ident \/ w = backticked ident) written idents ->
  let q := QueryBase.init t
             (QueryBase._initial_pattern t ++ PyString.join_dot written) in
  table q = Some (PyString.join_dot idents) /\ invalid q = false.
Proof.
  intros Hne Hid Hw.
  assert (Hchars : forall w ident,
            all_chars ident_char ident = true ->
            w = ident \/ w = backticked ident ->
            all_chars (fun c => negb (Ascii.eqb c "."%char)) w = true /\
            no_newline w = true /\
            PyString.strip PyString.is_backtick w = ident).
  { intros w ident Hi Hwi.
    assert (Hd : all_chars (fun c => negb (Ascii.eqb c "."%char)) ident = true).
    { revert Hi. apply all_chars_weaken. intros c. unfold ident_char.
      rewrite !negb_orb. by intros [[? _]%andb_prop _]%andb_prop. }
    assert (Hn : no_newline ident = true).
    { revert Hi. apply all_chars_weaken. intros c. unfold ident_char.
      rewrite !negb_orb. by intros [_ ?]%andb_prop. }
    destruct (strip_backticked ident Hi) as [Hq Hb].
    destruct Hwi as [->| ->]; [done|].
    unfold backticked, no_newline.
    change ("`" ++ ident ++ "`") with (String "`"%char (ident ++ "`")).
    cbn [all_chars]. rewrite !all_chars_app. unfold no_newline in Hn.
    rewrite Hd, Hn. by split_and!. }
  assert (Hwritten :
    Forall (fun s => all_chars (fun c => negb (Ascii.eqb c "."%char)) s = true)
      written /\
    no_newline (PyString.join_dot written) = true /\
    map (PyString.strip PyString.is_backtick) written = idents /\
    written <> []).
  { unfold PyString.join_dot. revert Hne Hid.
    induction Hw as [|w ident written idents Hwi Hw IH]; intros Hne Hid.
    - done.
    - apply Forall_cons in Hid as [Hi Hid].
      destruct (Hchars w ident Hi Hwi) as (Hd & Hn & Hs).
      destruct Hw as [|w' ident' written idents Hwi' Hw].
      + simpl. rewrite Hs. split_and!; [by repeat constructor|done..].
      + destruct IH as (IHd & IHn & IHs & _); [done|done|].
        split_and!; [by constructor| |by rewrite map_cons, Hs, IHs|done].
        change (String.concat "." (w :: w' :: written))
          with (w ++ String "."%char (String.concat "." (w' :: written))).
        unfold no_newline in *. rewrite all_chars_app. cbn [all_chars].
        by rewrite Hn, IHn. }
  destruct Hwritten as (Hd & Hn & Hs & Hwne).
  unfold QueryBase.init, QueryBase._parse_initial_line. cbn [type].
  unfold PyString.match_header.
  rewrite startswith_app, drop_app_length, match_rest_no_newline by done.
  rewrite split_dot_join_dot by done. rewrite Hs. done.
Qed.

Lemma header_table_normalised_witness :
  table (QueryBase.init DELETE "DELETE FROM `db1`.t1") = Some "db1.t1" /\
  invalid (QueryBase.init DELETE "DELETE FROM `db1`.t1") = false.
Proof.
  apply (header_table_normalised DELETE ["`db1`"; "t1"] ["db1"; "t1"]).
  - discriminate.
  - repeat constructor.
  - constructor; [by right|]. constructor; [by left|]. constructor.
Defined.

(** ** The position file across a sweep *)

Lemma rstrip_idempotent (f : ascii -> bool) (s : string) :
  PyString.rstrip f (PyString.rstrip f s) = PyString.rstrip f s.
Proof.
  induction s as [|c s IH]; simpl; [done|].
  destruct (PyString.rstrip f s) as [|c' r] eqn:Er.
  - destruct (f c) eqn:Ec; simpl; [done|]. by rewrite Ec.
  - change (PyString.rstrip f (String c (String c' r)))
      with (match PyString.rstrip f (String c' r) with
            | EmptyString => if f c then EmptyString else String c EmptyString
            | String a b => String c (String a b)
            end).
    by rewrite IH.
Qed.

(** X9. [write_position] leaves in the file the position and nothing else,
    whatever the file held and wherever its offset was, with the offset at
    the end of what was written. *)
Theorem write_position_overwrites (f : FileObject) (pos : string) :
  data (BinlogParser.write_position f pos) = pos /\
  offset (BinlogParser.write_position f pos) = String.length pos.
Proof. split; [apply write_position_data|done]. Qed.

Section CursorFacts.
Context `{PyRuntime}.

Lemma read_position_stripped (fs : gmap string Node) (pos_file pos : string) :
  BinlogParser.read_position fs pos_file = Ok pos ->
  pos <> "" /\ PyString.rstrip PyString.is_whitespace pos = pos.
Proof.
  unfold BinlogParser.read_position.
  destruct (BinlogParser.open_read fs pos_file) as [contents|e].
  - case_decide as Hret; intros [= <-]; [done|].
    split; [done|apply rstrip_idempotent].
  - destruct e; try done. case_decide; [|done]. by intros [= <-].
Qed.

Lemma loop_body_cursor (tb : Tables) (l : string)
  (s s' : BinlogParser.Sweep) :
  (BinlogParser.loop_body tb l s).2 = Ok s' ->
  BinlogParser.last_position s' =
    default (BinlogParser.last_position s) (BinlogFiles.marker l) /\
  (data (BinlogParser.writepos s) = BinlogParser.last_position s ->
   data (BinlogParser.writepos s') = BinlogParser.last_position s') /\
  (PyString.rstrip PyString.is_whitespace (BinlogParser.last_position s) =
     BinlogParser.last_position s ->
   PyString.rstrip PyString.is_whitespace (BinlogParser.last_position s') =
     BinlogParser.last_position s').
Proof.
  unfold BinlogParser.loop_body, BinlogFiles.marker.
  destruct (PyString.startswith "### " l).
  - cbn [snd]. destruct (QueryParser.parse tb _ _); simpl; [|done].
    by intros [= <-].
  - destruct (PyString.startswith "# at " l); cbn [snd].
    + intros [= <-]. cbn [BinlogParser.last_position BinlogParser.writepos
                          default].
      split_and!; [done| |].
      * intros _. apply write_position_data.
      * intros _. apply rstrip_idempotent.
    + by intros [= <-].
Qed.

Lemma stream_cursor (tb : Tables) (lines : list BinlogParser.Delivery) :
  forall (s : BinlogParser.Sweep) (cs : list BinlogParser.Call),
    data (BinlogParser.writepos s) = BinlogParser.last_position s ->
    PyString.rstrip PyString.is_whitespace (BinlogParser.last_position s) =
      BinlogParser.last_position s ->
    let r := BinlogParser.stream tb lines s cs in
    data (BinlogParser.writepos (BinlogParser.sweep r)) =
      BinlogParser.last_position (BinlogParser.sweep r) /\
    PyString.rstrip PyString.is_whitespace
      (BinlogParser.last_position (BinlogParser.sweep r)) =
      BinlogParser.last_position (BinlogParser.sweep r) /\
    (BinlogParser.exit r = BinlogParser.Completed ->
     BinlogParser.last_position (BinlogParser.sweep r) =
       last_marker (BinlogParser.last_position s) lines).
Proof.
  induction lines as [|d rest IH]; intros s cs Hdata Hstrip.
  - cbn [BinlogParser.stream].
    destruct (QueryParser.finish tb (BinlogParser.p s)) as [p'|e]; simpl.
    + done.
    + split_and!; [done|done|]. by destruct (is_Exception e).
  - cbn [BinlogParser.stream].
    destruct (BinlogParser.done d); [done|].
    pose proof (loop_body_cursor tb (BinlogParser.line d) s) as Hbody.
    destruct (BinlogParser.loop_body tb (BinlogParser.line d) s)
      as [made [s'|e]]; cbn [snd] in Hbody.
    + destruct (Hbody s' eq_refl) as (Hlast & Hd & Hs).
      destruct (IH s' (cs ++ made)%list (Hd Hdata) (Hs Hstrip))
        as (IH1 & IH2 & IH3).
      split_and!; [done|done|].
      intros Hexit. rewrite (IH3 Hexit). unfold last_marker. simpl.
      by rewrite Hlast.
    + simpl. split_and!; [done|done|]. by destruct (is_Exception e).
Qed.

(** X10. Whatever way the loop is left, the position file holds the last
    position recorded; and when the stream is read to its end, that
    position is the one of the last marker line of the output, or the
    starting position when the output has no marker line. *)
Theorem cursor_follows_markers (tb : Tables)
  (lines : list BinlogParser.Delivery) (s : BinlogParser.Sweep) :
  data (BinlogParser.writepos s) = BinlogParser.last_position s ->
  let r := BinlogParser.stream tb lines s [] in
  data (BinlogParser.writepos (BinlogParser.sweep r)) =
    BinlogParser.last_position (BinlogParser.sweep r) /\
  (BinlogParser.exit r = BinlogParser.Completed ->
   data (BinlogParser.writepos (BinlogParser.sweep r)) =
     last_marker (BinlogParser.last_position s) lines).
Proof.
  intros Hdata r. subst r.
  assert (Hgen : forall ls s cs,
    data (BinlogParser.writepos s) = BinlogParser.last_position s ->
    let r := BinlogParser.stream tb ls s cs in
    data (BinlogParser.writepos (BinlogParser.sweep r)) =
      BinlogParser.last_position (BinlogParser.sweep r) /\
    (BinlogParser.exit r = BinlogParser.Completed ->
     BinlogParser.last_position (BinlogParser.sweep r) =
       last_marker (BinlogParser.last_position s) ls)).
  { clear. induction ls as [|d rest IH]; intros s cs Hdata.
    - cbn [BinlogParser.stream].
      destruct (QueryParser.finish tb (BinlogParser.p s)) as [p'|e]; simpl.
      + done.
      + split; [done|]. by destruct (is_Exception e).
    - cbn [BinlogParser.stream].
      destruct (BinlogParser.done d); [done|].
      pose proof (loop_body_cursor tb (BinlogParser.line d) s) as Hbody.
      destruct (BinlogParser.loop_body tb (BinlogParser.line d) s)
        as [made [s'|e]]; cbn [snd] in Hbody.
      + destruct (Hbody s' eq_refl) as (Hlast & Hd & _).
        destruct (IH s' (cs ++ made)%list (Hd Hdata)) as (IH1 & IH3).
        split; [done|].
        intros Hexit. rewrite (IH3 Hexit). unfold last_marker. simpl.
        by rewrite Hlast.
      + simpl. split; [done|]. by destruct (is_Exception e). }
  destruct (Hgen lines s [] Hdata) as [H1 H2].
  split; [done|]. intros Hexit. by rewrite H1, H2.
Qed.

(** X11. After [process_binlog], however its loop was left, reading the
    position file gives the last position recorded (the string 0 for an
    empty one), every other file being as it was; the decoder was started
    at the position read before, and when its output was read to the end
    the position recorded is the one of its last marker line, or the
    position read before when it has none. *)
Theorem process_binlog_resumes (tb : Tables) (pos_dir : string)
  (fs fs' : gmap string Node) (binlog : string)
  (output : string -> list BinlogParser.Delivery) (r : BinlogParser.Run) :
  BinlogFiles.process_binlog tb pos_dir fs binlog output = Ok (fs', r) ->
  let pos_file := BinlogFiles.build_pos_file pos_dir binlog in
  exists start,
    BinlogParser.read_position fs pos_file = Ok start /\
    BinlogParser.read_position fs' pos_file =
      Ok (position_read
            (BinlogParser.last_position (BinlogParser.sweep r))) /\
    (forall other, other <> pos_file -> fs' !! other = fs !! other) /\
    (BinlogParser.exit r = BinlogParser.Completed ->
     BinlogParser.last_position (BinlogParser.sweep r) =
       last_marker start (output start)).
Proof.
  intros Hrun. cbv zeta. unfold BinlogFiles.process_binlog in Hrun.
  set (pos_file := BinlogFiles.build_pos_file pos_dir binlog) in *.
  destruct (BinlogParser.read_position fs pos_file) as [start|] eqn:Hstart;
    simpl in Hrun; [|done].
  injection Hrun as <- <-.
  destruct (read_position_stripped fs pos_file start Hstart) as [_ Hstrip].
  set (s0 := {| BinlogParser.p := QueryParser.init;
                BinlogParser.writepos :=
                  BinlogParser.write_position BinlogFiles.open_write start;
                BinlogParser.last_position := start |}).
  destruct (stream_cursor tb (output start) s0 [])
    as (Hdata & Hs & Hlast).
  { apply write_position_data. }
  { exact Hstrip. }
  exists start. split_and!; [done| |by intros other ?; rewrite lookup_insert_ne|done].
  unfold BinlogParser.read_position, BinlogParser.open_read.
  rewrite lookup_insert_eq, Hdata, Hs. unfold position_read.
  by repeat case_decide.
Qed.

End CursorFacts.

Lemma cursor_follows_markers_witness :
  data (BinlogParser.writepos
          (BinlogParser.sweep
             (Scenario.run (Scenario.running <$> Scenario.output4)))) =
  last_marker "0" (Scenario.running <$> Scenario.output4).
Proof.
  apply (cursor_follows_markers (H := Scenario.runtime) Scenario.tables
           (Scenario.running <$> Scenario.output4) Scenario.sweep0);
    reflexivity.
Defined.

Lemma process_binlog_resumes_witness :
  BinlogParser.read_position
    {[ "/var/lib/mygrate/binlogpos.000001" := Readable "200" ]}
    "/var/lib/mygrate/binlogpos.000001" = Ok "200".
Proof.
  destruct (process_binlog_resumes (H := Scenario.runtime) Scenario.tables
              "/var/lib/mygrate"
              {[ "/var/lib/mygrate/binlogpos.000001" := Readable "100" ]}
              {[ "/var/lib/mygrate/binlogpos.000001" := Readable "200" ]}
              "/var/log/mysql/mysql-bin.000001"
              (fun _ => Scenario.running <$> Scenario.output4)
              (BinlogParser.stream (H := Scenario.runtime) Scenario.tables
                 (Scenario.running <$> Scenario.output4)
                 {| BinlogParser.p := QueryParser.init;
                    BinlogParser.writepos := {| data := "100"; offset := 3 |};
                    BinlogParser.last_position := "100" |} []))
    as (start & _ & Hread & _).
  - reflexivity.
  - exact Hread.
Defined.

(** ** The name of the position file *)

Lemma rfind_absent (c : ascii) (s : string) :
  all_chars (fun a => negb (Ascii.eqb a c)) s = true ->
  BinlogFiles.rfind c s = -1.
Proof.
  induction s as [|a s IH]; simpl; [done|].
  intros [Ha Hs]%andb_prop. rewrite (IH Hs). simpl.
  by apply negb_true_iff in Ha as ->.
Qed.

Lemma rfind_nonneg_bound (c : ascii) (s : string) :
  -1 <= BinlogFiles.rfind c s.
Proof.
  induction s as [|a s IH]; simpl; [lia|].
  destruct (0 <=? BinlogFiles.rfind c s) eqn:E; [lia|].
  destruct (Ascii.eqb a c); lia.
Qed.

Lemma rfind_last (c : ascii) (a b : string) :
  all_chars (fun x => negb (Ascii.eqb x c)) b = true ->
  BinlogFiles.rfind c (a ++ String c b) = Z.of_nat (String.length a).
Proof.
  intros Hb. induction a as [|x a IH].
  - simpl. rewrite (rfind_absent c b Hb). simpl. by rewrite Ascii.eqb_refl.
  - change (String x a ++ String c b) with (String x (a ++ String c b)).
    cbn [BinlogFiles.rfind]. rewrite IH.
    destruct (0 <=? Z.of_nat (String.length a)) eqn:E;
      [|apply Z.leb_gt in E; lia].
    cbn [String.length]. lia.
Qed.

Lemma rfind_app_absent (c : ascii) (a b : string) :
  all_chars (fun x => negb (Ascii.eqb x c)) b = true ->
  BinlogFiles.rfind c (a ++ b) = BinlogFiles.rfind c a.
Proof.
  intros Hb. induction a as [|x a IH].
  - simpl. by rewrite (rfind_absent c b Hb).
  - change (String x a ++ b) with (String x (a ++ b)).
    cbn [BinlogFiles.rfind]. by rewrite IH.
Qed.

Lemma substring_app_prefix (a b : string) :
  String.substring 0 (String.length a) (a ++ b) = a.
Proof. induction a as [|x a IH]; simpl; [by destruct b|by rewrite IH]. Qed.

Lemma substring_app_skip (a b : string) (n : nat) :
  String.substring (String.length a) n (a ++ b) = String.substring 0 n b.
Proof. induction a as [|x a IH]; simpl; done. Qed.

Lemma append_assoc (a b c : string) : (a ++ b) ++ c = a ++ b ++ c.
Proof. induction a as [|x a IH]; simpl; [done|by rewrite IH]. Qed.

Lemma length_append (a b : string) :
  String.length (a ++ b) = (String.length a + String.length b)%nat.
Proof. induction a as [|x a IH]; simpl; [done|by rewrite IH]. Qed.

(** A binlog path written as directory, file name, dot, extension: the
    directory is empty or ends with a slash, the name holds no slash and
    some character that is no dot, the extension holds neither dot nor
    slash. *)
Lemma splitext_extension (dir name ext : string) :
  dir = "" \/ (exists d, dir = d ++ "/") ->
  all_chars (fun c => negb (Ascii.eqb c "/"%char)) name = true ->
  all_chars BinlogFiles.is_dot name = false ->
  all_chars (fun c => negb (Ascii.eqb c "."%char)) ext = true ->
  all_chars (fun c => negb (Ascii.eqb c "/"%char)) ext = true ->
  BinlogFiles.splitext (dir ++ name ++ "." ++ ext) = (dir ++ name, "." ++ ext).
Proof.
  intros Hdir Hname Hdots Hext Hext'.
  unfold BinlogFiles.splitext.
  assert (Hsep : BinlogFiles.rfind "/" (dir ++ name ++ "." ++ ext) + 1 =
                 Z.of_nat (String.length dir)).
  { rewrite rfind_app_absent.
    - destruct Hdir as [->|[d ->]]; [done|].
      rewrite (rfind_last "/" d "") by done.
      rewrite length_append. simpl. lia.
    - rewrite all_chars_app, Hname. simpl. exact Hext'. }
  assert (Hdot : BinlogFiles.rfind "." (dir ++ name ++ "." ++ ext) =
                 Z.of_nat (String.length (dir ++ name))).
  { rewrite <- append_assoc. by apply rfind_last. }
  assert (Hlen : (0 < String.length name)%nat).
  { destruct name; [done|simpl; lia]. }
  rewrite Hdot.
  replace (BinlogFiles.rfind "/" (dir ++ name ++ "." ++ ext))
    with (Z.of_nat (String.length dir) - 1) by lia.
  rewrite length_append.
  destruct (Z.of_nat (String.length dir) - 1 <?
            Z.of_nat (String.length dir + String.length name)) eqn:E;
    [|apply Z.ltb_ge in E; lia].
  replace (Z.to_nat (Z.of_nat (String.length dir) - 1 + 1))
    with (String.length dir) by lia.
  replace (Z.to_nat (Z.of_nat (String.length dir + String.length name) -
                     (Z.of_nat (String.length dir) - 1 + 1)))
    with (String.length name) by lia.
  rewrite substring_app_skip, substring_app_prefix, Hdots.
  rewrite Nat2Z.id, <- length_append, <- append_assoc.
  by rewrite substring_app_prefix, drop_app_length.
Qed.

(** X12. The position file of a binlog is named after the extension of the
    binlog alone: it is [binlogpos] with that extension, in the tracking
    directory, so that two binlogs with the same extension, in whatever
    directories and under whatever names, share one position file. *)
Theorem build_pos_file_by_extension (pos_dir dir name ext : string) :
  dir = "" \/ (exists d, dir = d ++ "/") ->
  all_chars (fun c => negb (Ascii.eqb c "/"%char)) name = true ->
  all_chars BinlogFiles.is_dot name = false ->
  all_chars (fun c => negb (Ascii.eqb c "."%char)) ext = true ->
  all_chars (fun c => negb (Ascii.eqb c "/"%char)) ext = true ->
  BinlogFiles.build_pos_file pos_dir (dir ++ name ++ "." ++ ext) =
    BinlogFiles.join pos_dir ("binlogpos." ++ ext)
  /\ (pos_dir <> "" -> BinlogFiles.ends_with_slash pos_dir = false ->
      BinlogFiles.build_pos_file pos_dir (dir ++ name ++ "." ++ ext) =
        pos_dir ++ "/binlogpos." ++ ext)
  /\ forall dir' name',
       dir' = "" \/ (exists d, dir' = d ++ "/") ->
       all_chars (fun c => negb (Ascii.eqb c "/"%char)) name' = true ->
       all_chars BinlogFiles.is_dot name' = false ->
       BinlogFiles.build_pos_file pos_dir (dir' ++ name' ++ "." ++ ext) =
       BinlogFiles.build_pos_file pos_dir (dir ++ name ++ "." ++ ext).
Proof.
  intros Hdir Hname Hdots Hext Hext'.
  assert (Hbuild : forall dir name,
            dir = "" \/ (exists d, dir = d ++ "/") ->
            all_chars (fun c => negb (Ascii.eqb c "/"%char)) name = true ->
            all_chars BinlogFiles.is_dot name = false ->
            BinlogFiles.build_pos_file pos_dir (dir ++ name ++ "." ++ ext) =
            BinlogFiles.join pos_dir ("binlogpos." ++ ext)).
  { intros d n Hd Hn Hnd. unfold BinlogFiles.build_pos_file.
    by rewrite splitext_extension. }
  split_and!.
  - by apply Hbuild.
  - intros Hne Hslash. rewrite Hbuild by done. unfold BinlogFiles.join.
    simpl. rewrite Hslash, bool_decide_eq_false_2 by done. done.
  - intros dir' name' Hd' Hn' Hnd'. by rewrite !Hbuild.
Qed.

Lemma build_pos_file_by_extension_witness :
  BinlogFiles.build_pos_file "/var/lib/mygrate"
    ("/var/log/mysql/" ++ "mysql-bin" ++ "." ++ "000123") =
  "/var/lib/mygrate" ++ "/binlogpos." ++ "000123".
Proof.
  destruct (build_pos_file_by_extension "/var/lib/mygrate"
              "/var/log/mysql/" "mysql-bin" "000123")
    as (_ & Hfile & _).
  - right. by exists "/var/log/mysql".
  - reflexivity.
  - reflexivity.
  - reflexivity.
  - reflexivity.
  - apply Hfile; [discriminate|reflexivity].
Defined.

Example cursor_file_layout :
  BinlogFiles.build_pos_file "/var/lib/mygrate"
    "/var/log/mysql/mysql-bin.000123" =
  "/var/lib/mygrate/binlogpos.000123".
Proof. vm_compute. reflexivity. Qed.

(** ** Skipping to the end of a binlog *)

Lemma revapp_nonnil_r (d d' : Decimal.uint) :
  d' <> Decimal.Nil -> Decimal.revapp d d' <> Decimal.Nil.
Proof. revert d'. induction d; intros d' Hd'; simpl; [done|by apply IHd..]. Qed.

Lemma to_uint_nonnil (n : nat) : Nat.to_uint n <> Decimal.Nil.
Proof.
  unfold Nat.to_uint, Decimal.rev.
  assert (Hlittle : forall n acc,
            acc <> Decimal.Nil -> Nat.to_little_uint n acc <> Decimal.Nil).
  { clear. induction n as [|n IH]; intros acc Hacc; simpl; [done|].
    apply IH. by destruct acc. }
  specialize (Hlittle n Decimal.zero).
  destruct (Nat.to_little_uint n Decimal.zero); simpl;
    [by apply Hlittle|by apply revapp_nonnil_r..].
Qed.

Lemma string_of_uint_digits (d : Decimal.uint) :
  all_chars (fun c => negb (PyString.is_whitespace c))
    (NilEmpty.string_of_uint d) = true.
Proof. induction d; simpl; [done|exact IHd..]. Qed.

Lemma str_stripped (n : nat) :
  BinlogFiles.str n <> "" /\
  PyString.rstrip PyString.is_whitespace (BinlogFiles.str n) = BinlogFiles.str n.
Proof.
  unfold BinlogFiles.str. split.
  - pose proof (to_uint_nonnil n) as Hn. by destruct (Nat.to_uint n).
  - apply rstrip_none, string_of_uint_digits.
Qed.

(** X13. When the position file can be read or is missing, the size of
    the binlog can be taken, the position file can be opened for writing
    and neither the writes nor the [print] raise, [set_binlogpos_at_end]
    returns, and after it reading the position file gives the size in
    decimal, no other file having changed.  When one of these steps raises,
    [set_binlogpos_at_end] raises the exception of the first that does: no
    statement of it catches any. *)
Theorem set_binlogpos_at_end_read_back (pos_dir : string)
  (fs : gmap string Node) (binlog : string) (sys : BinlogFiles.Answers) :
  let pos_file := BinlogFiles.build_pos_file pos_dir binlog in
  let ret := BinlogFiles.set_binlogpos_at_end pos_dir fs binlog sys in
  (forall e, BinlogParser.read_position fs pos_file = Raise e ->
             ret = Raise e)
  /\ (forall old_pos,
        BinlogParser.read_position fs pos_file = Ok old_pos ->
        (forall e, BinlogFiles.getsize sys = Raise e -> ret = Raise e)
        /\ (forall size,
              BinlogFiles.getsize sys = Ok size ->
              (forall e, BinlogFiles.opening sys = Some e -> ret = Raise e)
              /\ (BinlogFiles.opening sys = None ->
                  (forall e, BinlogFiles.writing sys = Some e ->
                             ret = Raise e)
                  /\ (BinlogFiles.writing sys = None ->
                      (forall e, BinlogFiles.printing sys = Some e ->
                                 ret = Raise e)
                      /\ (BinlogFiles.printing sys = None ->
                          exists fs',
                            ret = Ok fs' /\
                            BinlogParser.read_position fs' pos_file =
                              Ok (BinlogFiles.str size) /\
                            forall other, other <> pos_file ->
                                          fs' !! other = fs !! other))))).
Proof.
  intros pos_file ret. subst ret. unfold BinlogFiles.set_binlogpos_at_end.
  fold pos_file. unfold mbind, Result_bind, mret, Result_ret.
  split; [by intros e ->|]. intros old_pos ->.
  split; [by intros e ->|]. intros size ->.
  split; [by intros e ->|]. intros ->.
  split; [by intros e ->|]. intros ->.
  split; [by intros e ->|]. intros ->. cbn [BinlogFiles.attempt].
  eexists. split; [reflexivity|].
  split; [|by intros other ?; rewrite lookup_insert_ne].
  unfold BinlogParser.read_position, BinlogParser.open_read.
  rewrite lookup_insert_eq, write_position_data.
  destruct (str_stripped size) as [Hne ->]. by rewrite decide_False.
Qed.

Lemma set_binlogpos_at_end_read_back_witness :
  exists fs',
    BinlogFiles.set_binlogpos_at_end "/var/lib/mygrate"
      {[ "/var/lib/mygrate/binlogpos.000001" := Readable "100" ]}
      "/var/log/mysql/mysql-bin.000001"
      {| BinlogFiles.getsize := Ok 4711%nat; BinlogFiles.opening := None;
         BinlogFiles.writing := None; BinlogFiles.printing := None |} =
      Ok fs' /\
    BinlogParser.read_position fs'
      (BinlogFiles.build_pos_file "/var/lib/mygrate"
         "/var/log/mysql/mysql-bin.000001") = Ok (BinlogFiles.str 4711) /\
    forall other,
      other <> BinlogFiles.build_pos_file "/var/lib/mygrate"
                 "/var/log/mysql/mysql-bin.000001" ->
      fs' !! other =
      ({[ "/var/lib/mygrate/binlogpos.000001" := Readable "100" ]}
         : gmap string Node) !! other.
Proof.
  destruct (set_binlogpos_at_end_read_back "/var/lib/mygrate"
              {[ "/var/lib/mygrate/binlogpos.000001" := Readable "100" ]}
              "/var/log/mysql/mysql-bin.000001"
              {| BinlogFiles.getsize := Ok 4711%nat;
                 BinlogFiles.opening := None;
                 BinlogFiles.writing := None;
                 BinlogFiles.printing := None |}) as [_ Hread].
  destruct (Hread "100") as [_ Hsize]; [vm_compute; reflexivity|].
  destruct (Hsize 4711%nat) as [_ Hopen]; [reflexivity|].
  destruct Hopen as [_ Hwrite]; [reflexivity|].
  destruct Hwrite as [_ Hprint]; [reflexivity|].
  exact (Hprint eq_refl).
Defined.

(** A position file that cannot be opened for writing: the [IOError]
    leaves the method. *)
Example set_binlogpos_at_end_unwritable :
  BinlogFiles.set_binlogpos_at_end "/var/lib/mygrate" ∅
    "/var/log/mysql/mysql-bin.000001"
    {| BinlogFiles.getsize := Ok 4711%nat;
       BinlogFiles.opening := Some (IOError 13);
       BinlogFiles.writing := None; BinlogFiles.printing := None |} =
  Raise (IOError 13).
Proof. vm_compute. reflexivity. Qed.

Example str_decimal :
  BinlogFiles.str 0 = "0" /\ BinlogFiles.str 4711 = "4711".
Proof. split; vm_compute; reflexivity. Qed.

(** ** Sweeps over the index *)

Section SweepFacts.
Context {Time World : Type}.
Context (zero : Time) (lt_time : Time -> Time -> bool).
Context (getmtime : World -> string -> Result Time).
Context (process : World -> string -> Result World).

Local Abbreviation sweep_over :=
  (BinlogFiles.process_all_binlogs zero lt_time getmtime process).
Local Abbreviation fresh := (BinlogFiles.up_to_date getmtime).

Lemma sweep_skips_fresh (binlogs : list (bool * string))
  (st : BinlogFiles.Sweeper) :
  (forall t, lt_time t t = false) ->
  Forall (fun fb => fb.1 = true \/ fresh st fb.2) binlogs ->
  sweep_over binlogs st = Ok st.
Proof.
  intros Hirr.
  induction 1 as [|[flag binlog] rest Hb _ IH]; simpl; [done|].
  destruct flag; [done|].
  destruct Hb as [?|(t & Hm & Hg)]; [done|]. simpl in Hm, Hg.
  rewrite Hg, Hm. simpl. rewrite Hirr, insert_id by done.
  by destruct st.
Qed.

(** X14. A sweep over binlogs whose modification times are the remembered
    ones, or whose turn comes with the shutdown flag set, processes none of
    them and leaves the remembered times as they are. *)
Theorem unchanged_binlogs_skipped (binlogs : list (bool * string))
  (st : BinlogFiles.Sweeper) :
  (forall t, lt_time t t = false) ->
  Forall (fun fb => fb.1 = true \/ fresh st fb.2) binlogs ->
  sweep_over binlogs st = Ok st.
Proof. apply sweep_skips_fresh. Qed.

Lemma sweep_keeps_fresh (binlogs : list (bool * string)) :
  (forall w b w' b', process w b = Ok w' -> getmtime w' b' = getmtime w b') ->
  forall (st st' : BinlogFiles.Sweeper) (binlog : string),
    sweep_over binlogs st = Ok st' ->
    fresh st binlog -> fresh st' binlog.
Proof.
  intros Hstable.
  induction binlogs as [|[flag b] rest IH]; intros st st' binlog; simpl.
  - by intros [= <-].
  - destruct flag; [apply IH|].
    destruct (getmtime (BinlogFiles.world st) b) as [t|] eqn:Hg; simpl; [|done].
    assert (Hstep : forall w ps,
              (forall b', getmtime w b' = getmtime (BinlogFiles.world st) b') ->
              fresh st binlog ->
              fresh {| BinlogFiles.binlog_mtimes :=
                         <[b := t]> (BinlogFiles.binlog_mtimes st);
                       BinlogFiles.world := w;
                       BinlogFiles.processed := ps |} binlog).
    { intros w ps Hw (t0 & Hm & Hg0). unfold BinlogFiles.up_to_date. simpl.
      rewrite Hw. destruct (decide (b = binlog)) as [->|Hne].
      - exists t. rewrite lookup_insert_eq. by split.
      - exists t0. by rewrite lookup_insert_ne. }
    destruct (lt_time _ t).
    + destruct (process (BinlogFiles.world st) b) as [w|] eqn:Hp; simpl;
        [|done].
      intros Hrest Hup. eapply IH; [exact Hrest|]. apply Hstep; [|done].
      intros b'. by eapply Hstable.
    + intros Hrest Hup. eapply IH; [exact Hrest|]. by apply Hstep.
Qed.

Lemma sweep_makes_fresh (binlogs : list (bool * string)) :
  (forall w b w' b', process w b = Ok w' -> getmtime w' b' = getmtime w b') ->
  forall (st st' : BinlogFiles.Sweeper),
    sweep_over binlogs st = Ok st' ->
    Forall (fun fb => fb.1 = true \/ fresh st' fb.2) binlogs.
Proof.
  intros Hstable.
  induction binlogs as [|[flag b] rest IH]; intros st st'; simpl; [done|].
  destruct flag.
  - intros Hrest. constructor; [by left|by eapply IH].
  - destruct (getmtime (BinlogFiles.world st) b) as [t|] eqn:Hg; simpl; [|done].
    assert (Hnow : forall w ps,
              (forall b', getmtime w b' = getmtime (BinlogFiles.world st) b') ->
              fresh {| BinlogFiles.binlog_mtimes :=
                         <[b := t]> (BinlogFiles.binlog_mtimes st);
                       BinlogFiles.world := w;
                       BinlogFiles.processed := ps |} b).
    { intros w ps Hw. exists t. simpl. rewrite lookup_insert_eq, Hw. by split. }
    destruct (lt_time _ t).
    + destruct (process (BinlogFiles.world st) b) as [w|] eqn:Hp; simpl;
        [|done].
      intros Hrest. constructor; [|by eapply IH].
      right. simpl. eapply sweep_keeps_fresh; [done|exact Hrest|].
      apply Hnow. intros b'. by eapply Hstable.
    + intros Hrest. constructor; [|by eapply IH].
      right. simpl. eapply sweep_keeps_fresh; [done|exact Hrest|].
      by apply Hnow.
Qed.

(** X15. When processing a binlog does not change the modification time of
    any binlog, a sweep that comes to its end leaves every binlog whose turn
    came with the shutdown flag unset with its present modification time
    remembered, so that the same sweep made again processes nothing and
    changes nothing. *)
Theorem second_sweep_idle (binlogs : list (bool * string))
  (st st' : BinlogFiles.Sweeper) :
  (forall t, lt_time t t = false) ->
  (forall w b w' b', process w b = Ok w' -> getmtime w' b' = getmtime w b') ->
  sweep_over binlogs st = Ok st' ->
  Forall (fun fb => fb.1 = false -> fresh st' fb.2) binlogs /\
  sweep_over binlogs st' = Ok st'.
Proof.
  intros Hirr Hstable Hsweep.
  pose proof (sweep_makes_fresh binlogs Hstable st st' Hsweep) as Hfresh.
  split.
  - eapply Forall_impl; [exact Hfresh|].
    intros [flag b] [Hflag|Hb] Hunset; simpl in *; [congruence|done].
  - by apply sweep_skips_fresh.
Qed.

End SweepFacts.

Lemma unchanged_binlogs_skipped_witness :
  BinlogFiles.process_all_binlogs 0 Z.ltb Fixtures.getmtime Fixtures.process
    Fixtures.index Fixtures.sweeper1 = Ok Fixtures.sweeper1.
Proof.
  apply (unchanged_binlogs_skipped 0 Z.ltb Fixtures.getmtime Fixtures.process
           Fixtures.index Fixtures.sweeper1).
  - intros t. apply Z.ltb_irrefl.
  - constructor; [right; eexists; split; reflexivity|].
    constructor; [right; eexists; split; reflexivity|]. constructor.
Defined.

Lemma second_sweep_idle_witness :
  Forall (fun fb => fb.1 = false ->
                    BinlogFiles.up_to_date Fixtures.getmtime
                      Fixtures.sweeper1 fb.2)
         Fixtures.index /\
  BinlogFiles.process_all_binlogs 0 Z.ltb Fixtures.getmtime Fixtures.process
    Fixtures.index Fixtures.sweeper1 = Ok Fixtures.sweeper1.
Proof.
  apply (second_sweep_idle 0 Z.ltb Fixtures.getmtime Fixtures.process
           Fixtures.index Fixtures.sweeper0 Fixtures.sweeper1).
  - intros t. apply Z.ltb_irrefl.
  - reflexivity.
  - reflexivity.
Defined.

(** ** Loading the column names *)










(** ** The bulk importer *)

Section ImporterFacts.
Context {World Row Kwargs : Type}.
Context (no_kwargs : Kwargs).
Context (select_all : string -> string -> list Row).
Local Abbreviation Registry'' :=
  (MygrateCallbacks.Registry World (list Row) Kwargs).




Lemma for_rows_prefix (callbacks : Registry'') (action full_table : string)
  (by_action : gmap string (MygrateCallbacks.Callback World (list Row) Kwargs))
  (callback : MygrateCallbacks.Callback World (list Row) Kwargs)
  (before rest : list Row) :
  MygrateCallbacks.callbacks callbacks !! full_table = Some by_action ->
  by_action !! action = Some callback ->
  (forall r w, r ∈ before -> (callback full_table [r] no_kwargs w).2 = None) ->
  forall w,
    InitialQuery.for_rows no_kwargs callbacks action full_table
      (before ++ rest) w =
    InitialQuery.for_rows no_kwargs callbacks action full_table rest
      (foldl (fun w r => (callback full_table [r] no_kwargs w).1) w before).
Proof.
  intros Ht Ha. induction before as [|r before IH]; intros Hreturns w; simpl;
    [done|].
  unfold InitialQuery.run_callback at 1, MygrateCallbacks.execute at 1.
  rewrite Ht. cbv beta iota. unfold MygrateCallbacks.Callback in *.
  rewrite Ha.
  pose proof (Hreturns r w (list_elem_of_here _ _)) as Hr.
  destruct (callback full_table [r] no_kwargs w) as [w' [e'|]];
    simpl in *; [done|].
  apply IH. intros r' w0 Hr'. apply Hreturns. by right.
Qed.

Context (database : string -> TableImport.Database (Row := Row)).

(** With a database that connects, yields its rows and closes without
    exception, [process_table] is the loop over the rows with its
    [except Exception]. *)
Lemma process_table_connected (callbacks : Registry'')
  (action full_table : string) (w : World) :
  (forall db table,
     PyString.split_dot full_table = [db; table] ->
     TableImport.connecting (database db) = None /\
     TableImport.closing (database db) = None /\
     TableImport.selected (database db) table = (select_all db table, None)) ->
  TableImport.process_table no_kwargs database callbacks action full_table w =
  InitialQuery.process_table no_kwargs select_all callbacks action
    full_table w.
Proof.
  intros Hdb.
  unfold TableImport.process_table, InitialQuery.process_table.
  destruct (PyString.split_dot full_table) as [|db [|table [|x rest]]];
    try done.
  destruct (Hdb db table eq_refl) as (-> & -> & ->). cbv zeta. simpl.
  destruct (InitialQuery.for_rows _ _ _ _ _ _) as [w' [e|]]; simpl; [|done].
  by destruct (is_Exception e).
Qed.

(** X18. Importing a table lets out no [Exception] that the SELECT or the
    loop over the rows raises: it is logged and swallowed, the world
    staying as the loop left it.  An exception leaves [process_table] only
    when obtaining the connection or its cursor raises it, which happens
    before any callback runs, when closing them raises it, or when it is no
    [Exception]; and when the name of the table has not two parts,
    [ValueError] is raised before any callback runs.  With the default
    error handler, the first row on which the callback raises an
    [Exception] ends the import of the table: the rows after it are not
    handed to the callback. *)
Theorem process_table_contains (callbacks : Registry'')
  (action full_table : string) (w : World) :
  let ret := TableImport.process_table no_kwargs database callbacks action
               full_table w in
  ((forall db table, PyString.split_dot full_table <> [db; table]) ->
   ret = (w, Some ValueError))
  /\ (forall db table,
        PyString.split_dot full_table = [db; table] ->
        let sel := TableImport.selected (database db) table in
        let loop := InitialQuery.for_rows no_kwargs callbacks action
                      full_table sel.1 w in
        (forall e, TableImport.connecting (database db) = Some e ->
                   ret = (w, Some e))
        /\ (TableImport.connecting (database db) = None ->
            ret.1 = loop.1
            /\ (forall e, TableImport.closing (database db) = Some e ->
                          ret.2 = Some e)
            /\ (TableImport.closing (database db) = None ->
                forall e, ret.2 = Some e ->
                  is_Exception e = false /\
                  (loop.2 = Some e \/ loop.2 = None /\ sel.2 = Some e))))
  /\ (forall db table by_action callback before row after failure e w1,
        PyString.split_dot full_table = [db; table] ->
        TableImport.connecting (database db) = None ->
        TableImport.closing (database db) = None ->
        MygrateCallbacks.callbacks callbacks !! full_table = Some by_action ->
        by_action !! action = Some callback ->
        MygrateCallbacks.error_handler callbacks =
          MygrateCallbacks._default_error_handler ->
        TableImport.selected (database db) table =
          ((before ++ row :: after)%list, failure) ->
        (forall r w, r ∈ before ->
           (callback full_table [r] no_kwargs w).2 = None) ->
        w1 = foldl (fun w r => (callback full_table [r] no_kwargs w).1)
               w before ->
        (callback full_table [row] no_kwargs w1).2 = Some e ->
        is_Exception e = true ->
        ret = ((callback full_table [row] no_kwargs w1).1, None)).
Proof.
  cbv zeta. unfold TableImport.process_table. split_and!.
  - intros Hparts.
    destruct (PyString.split_dot full_table) as [|db [|table [|x rest]]];
      try done.
    by destruct (Hparts db table).
  - intros db table ->. split; [by intros e ->|]. intros ->.
    destruct (InitialQuery.for_rows _ _ _ _ _ _) as [w' [e|]]; cbn [fst snd].
    + destruct (TableImport.closing (database db)) as [c|]; cbn [fst snd].
      * split_and!; [done|by intros ? [= <-]|done].
      * split_and!; [done|done|]. intros _ e'.
        destruct (is_Exception e) eqn:Ee; [done|].
        intros [= <-]. split; [done|by left].
    + destruct (TableImport.closing (database db)) as [c|]; cbn [fst snd].
      * split_and!; [done|by intros ? [= <-]|done].
      * split_and!; [done|done|]. intros _ e'.
        destruct (TableImport.selected (database db) table).2 as [e|] eqn:Es;
          [|done].
        destruct (is_Exception e) eqn:Ee; [done|].
        intros [= <-]. split; [done|by right].
  - intros db table by_action callback before row after failure e w1
      -> -> -> Ht Ha Hdefault -> Hreturns Hw1 He Hexc. cbn [fst snd].
    rewrite (for_rows_prefix callbacks action full_table by_action callback
               before (row :: after) Ht Ha Hreturns w).
    rewrite <- Hw1. cbn [InitialQuery.for_rows].
    unfold InitialQuery.run_callback, MygrateCallbacks.execute.
    rewrite Ht. cbv beta iota. unfold MygrateCallbacks.Callback in *.
    rewrite Ha. rewrite Hdefault.
    destruct (callback full_table [row] no_kwargs w1) as [w' [e'|]];
      simpl in *; [|done].
    injection He as ->. rewrite Hexc. simpl. by rewrite Hexc.
Qed.

Lemma for_rows_exceptions (callbacks : Registry'') (action t : string)
  (rows : list Row) :
  (forall by_action callback args kwargs w e,
     MygrateCallbacks.callbacks callbacks !! t = Some by_action ->
     by_action !! action = Some callback ->
     (callback t args kwargs w).2 = Some e -> is_Exception e = true) ->
  (forall e args kwargs w e',
     is_Exception e = true ->
     (MygrateCallbacks.error_handler callbacks e t action args kwargs w).2 =
       Some e' ->
     is_Exception e' = true) ->
  forall w e,
    (InitialQuery.for_rows no_kwargs callbacks action t rows w).2 = Some e ->
    is_Exception e = true.
Proof.
  intros Hcb Hhandler. induction rows as [|row rest IH]; intros w e; simpl;
    [done|].
  unfold InitialQuery.run_callback, MygrateCallbacks.execute.
  destruct (MygrateCallbacks.callbacks callbacks !! t) as [by_action|] eqn:Et;
    [|apply IH].
  unfold MygrateCallbacks.Callback in *.
  destruct (by_action !! action) as [callback|] eqn:Ea; [|apply IH].
  pose proof (Hcb by_action callback [row] no_kwargs w) as Hraise.
  destruct (callback t [row] no_kwargs w) as [w' [e0|]]; simpl in *;
    [|apply IH].
  rewrite (Hraise e0 eq_refl Ea eq_refl).
  pose proof (Hhandler e0 [row] no_kwargs w') as Hh.
  destruct (MygrateCallbacks.error_handler callbacks e0 t action [row]
              no_kwargs w') as [w'' [e1|]]; simpl in *; [|apply IH].
  intros [= <-]. apply Hh; [|done]. by eapply Hraise.
Qed.

Lemma import_tables_app (callbacks : Registry'') (action : string)
  (before rest : list string) :
  forall w,
    TableImport.import_tables no_kwargs database callbacks action
      (before ++ rest) w =
    match TableImport.import_tables no_kwargs database callbacks action
            before w with
    | (w', None) =>
        TableImport.import_tables no_kwargs database callbacks action rest w'
    | (w', Some e) => (w', Some e)
    end.
Proof.
  induction before as [|t before IH]; intros w; simpl; [done|].
  destruct (TableImport.process_table _ _ _ _ _ _) as [w' [e|]]; [done|].
  apply IH.
Qed.

Section Exceptions.
(** The callbacks bound for the action, the error handler and the SELECT
    raise nothing but [Exception]s. *)
Context (callbacks : Registry'') (action : string).
Hypothesis callbacks_raise_exceptions :
  forall t by_action callback args kwargs w e,
    MygrateCallbacks.callbacks callbacks !! t = Some by_action ->
    by_action !! action = Some callback ->
    (callback t args kwargs w).2 = Some e -> is_Exception e = true.
Hypothesis handler_raises_exceptions :
  forall e t args kwargs w e',
    is_Exception e = true ->
    (MygrateCallbacks.error_handler callbacks e t action args kwargs w).2 =
      Some e' ->
    is_Exception e' = true.
Hypothesis select_raises_exceptions :
  forall db table e,
    (TableImport.selected (database db) table).2 = Some e ->
    is_Exception e = true.

Lemma import_tables_reachable (tables : list string) :
  Forall (fun t => exists db table, PyString.split_dot t = [db; table])
    tables ->
  Forall (TableImport.reachable database) tables ->
  forall w,
    TableImport.import_tables no_kwargs database callbacks action tables w =
    (foldl (fun w t =>
              (TableImport.process_table no_kwargs database callbacks
                 action t w).1) w tables,
     None).
Proof.
  intros Hparts.
  induction Hparts as [|t rest (db & table & Ht) _ IH]; intros Hreach w;
    simpl; [done|].
  apply Forall_cons in Hreach as [Hhere Hreach].
  assert (Hnone : (TableImport.process_table no_kwargs database callbacks
                     action t w).2 = None).
  { unfold TableImport.process_table. rewrite Ht.
    destruct (Hhere db table Ht) as [-> ->]. cbv zeta.
    pose proof (for_rows_exceptions callbacks action t
                  (TableImport.selected (database db) table).1
                  (callbacks_raise_exceptions t)
                  (fun e => handler_raises_exceptions e t) w) as He.
    pose proof (select_raises_exceptions db table) as Hs.
    destruct (InitialQuery.for_rows _ _ _ _ _ _) as [w' [e|]]; simpl in *.
    - by rewrite (He e eq_refl).
    - destruct (TableImport.selected (database db) table).2 as [e|]; [|done].
      by rewrite (Hs e eq_refl). }
  destruct (TableImport.process_table _ _ _ _ _ _) as [w' [e|]];
    simpl in *; [done|]. by apply IH.
Qed.

End Exceptions.

(** X19. When every requested table has a name of two parts and neither
    the callbacks bound for the action, nor the error handler, nor the
    SELECT raise anything but [Exception]s: if the connection and the
    cursor of every table are obtained and closed without exception, the
    importer goes through all the requested tables, in order, whatever
    fails in the rows of any of them, and returns normally; and the first
    table whose connection cannot be obtained ends the loop with the
    exception of the connection, the tables after it not being
    attempted. *)
Theorem import_tables_all (callbacks : Registry'') (action : string)
  (tables : list string) :
  Forall (fun t => exists db table, PyString.split_dot t = [db; table])
    tables ->
  (forall t by_action callback args kwargs w e,
     MygrateCallbacks.callbacks callbacks !! t = Some by_action ->
     by_action !! action = Some callback ->
     (callback t args kwargs w).2 = Some e -> is_Exception e = true) ->
  (forall e t args kwargs w e',
     is_Exception e = true ->
     (MygrateCallbacks.error_handler callbacks e t action args kwargs w).2 =
       Some e' ->
     is_Exception e' = true) ->
  (forall db table e,
     (TableImport.selected (database db) table).2 = Some e ->
     is_Exception e = true) ->
  (Forall (TableImport.reachable database) tables ->
   forall w,
     TableImport.import_tables no_kwargs database callbacks action tables w =
     (foldl (fun w t =>
               (TableImport.process_table no_kwargs database callbacks
                  action t w).1) w tables,
      None))
  /\ (forall before t after db table e,
        tables = (before ++ t :: after)%list ->
        Forall (TableImport.reachable database) before ->
        PyString.split_dot t = [db; table] ->
        TableImport.connecting (database db) = Some e ->
        forall w,
          TableImport.import_tables no_kwargs database callbacks action
            tables w =
          (foldl (fun w t =>
                    (TableImport.process_table no_kwargs database callbacks
                       action t w).1) w before,
           Some e)).
Proof.
  intros Hparts Hcb Hhandler Hselect. split.
  - by apply import_tables_reachable.
  - intros before t after db table e -> Hreach Ht Hconn w.
    apply Forall_app in Hparts as [Hbefore _].
    rewrite import_tables_app.
    rewrite (import_tables_reachable callbacks action Hcb Hhandler Hselect
               before Hbefore Hreach w).
    simpl. unfold TableImport.process_table. by rewrite Ht, Hconn.
Qed.

End ImporterFacts.


Lemma process_table_contains_witness :
  TableImport.process_table () ImportFixtures.database Scenario.registry
    "DELETE" "db1.t1" ["start"] =
  (["start"; "failing db1.t1"], None).
Proof.
  destruct (process_table_contains () ImportFixtures.database
              Scenario.registry "DELETE" "db1.t1" ["start"])
    as (_ & _ & Hstop).
  refine (Hstop "db1" "t1"
            (default ∅ (MygrateCallbacks.callbacks Scenario.registry !! "db1.t1"))
            (Scenario.failing ValueError) [] (PyInt 1) [PyInt 2] None
            ValueError ["start"] eq_refl eq_refl eq_refl eq_refl eq_refl
            eq_refl eq_refl _ eq_refl eq_refl eq_refl).
  intros r w Hr. by apply elem_of_nil in Hr.
Defined.

(** A database that refuses the connection: the exception leaves
    [process_table], and no callback has run. *)
Example process_table_unreachable :
  TableImport.process_table () ImportFixtures.database Scenario.registry
    "DELETE" "db2.t1" ["start"] =
  (["start"], Some (OtherException "OperationalError")).
Proof. reflexivity. Qed.

Lemma import_tables_all_witness :
  TableImport.import_tables () ImportFixtures.database
    ImportFixtures.raising "DELETE" ["db1.t1"; "db2.t1"; "db1.other"]
    ["start"] =
  (["start"; "failing db1.t1"], Some (OtherException "OperationalError")).
Proof.
  refine (proj2 (import_tables_all () ImportFixtures.database
                   ImportFixtures.raising "DELETE"
                   ["db1.t1"; "db2.t1"; "db1.other"] _ _ _ _)
            ["db1.t1"] "db2.t1" ["db1.other"] "db2" "t1"
            (OtherException "OperationalError") eq_refl _ eq_refl eq_refl
            ["start"]).
  - constructor; [by exists "db1", "t1"|].
    constructor; [by exists "db2", "t1"|].
    constructor; [by exists "db1", "other"|]. constructor.
  - intros t by_action callback args kwargs w e Ht Ha.
    unfold ImportFixtures.raising, MygrateCallbacks.register in Ht.
    simpl in Ht. apply lookup_insert_Some in Ht as [[_ <-]|[_ Ht]];
      [|by rewrite lookup_empty in Ht].
    apply lookup_insert_Some in Ha as [[_ <-]|[_ Ha]];
      [|by rewrite lookup_empty in Ha].
    simpl. by intros [= <-].
  - intros e t args kwargs w e' He. simpl. by intros [= <-].
  - intros db table e. simpl. done.
  - constructor; [|constructor].
    intros db table [= <- <-]. by split.
Defined.

(** ** The follower and the parser *)

Section FollowerFacts.
Context `{PyRuntime}.

(** X20. When the shutdown flag is never observed, the loop publishes
    exactly what the parser publishes when it is fed the event lines of the
    output, in order, and then finished: marker lines and the other lines
    of the decoder have no part in the events; and an exception of the
    parser ends the loop, caught when it is an [Exception]. *)
Theorem stream_publishes_as_parser (tb : Tables)
  (lines : list BinlogParser.Delivery) (s : BinlogParser.Sweep) :
  Forall (fun d => BinlogParser.done d = false) lines ->
  let r := BinlogParser.stream tb lines s [] in
  match st ← QueryParser.parse_all tb (BinlogParser.p s) (fed_lines lines);
        QueryParser.finish tb st with
  | Ok st' =>
      BinlogParser.exit r = BinlogParser.Completed /\
      BinlogParser.p (BinlogParser.sweep r) = st'
  | Raise e =>
      BinlogParser.exit r =
        (if is_Exception e then BinlogParser.Caught e
         else BinlogParser.Propagated e)
  end.
Proof. intros Hall. by apply stream_as_parser. Qed.

End FollowerFacts.

Lemma stream_publishes_as_parser_witness :
  BinlogParser.exit (Scenario.run (Scenario.running <$> Scenario.output4)) =
    BinlogParser.Completed /\
  BinlogParser.p
    (BinlogParser.sweep (Scenario.run (Scenario.running <$> Scenario.output4))) =
  {| current := None;
     published := [Insert "db1.t1" {[ "id" := PyInt 1 ]};
                   Insert "db1.t1" {[ "id" := PyInt 2 ]}] |}.
Proof.
  assert (Hall : Forall (fun d => BinlogParser.done d = false)
                   (Scenario.running <$> Scenario.output4))
    by (cbv; repeat constructor).
  exact (stream_publishes_as_parser (H := Scenario.runtime) Scenario.tables
           (Scenario.running <$> Scenario.output4) Scenario.sweep0 Hall).
Defined.

(** ** The connection parameters *)

Lemma get_raises_missing (parser : gmap string (gmap string string))
  (section option : string) (e : PyExc) :
  MygrateConfig.get parser section option = Raise e ->
  MygrateConfig.missing e = true.
Proof.
  unfold MygrateConfig.get.
  destruct (parser !! section) as [opts|]; [|by intros [= <-]].
  destruct (opts !! option); [done|by intros [= <-]].
Qed.

Section ConnectionFacts.
Context (get : string -> string -> Result string).

Lemma collect_lookup (items : list (string * string)) :
  NoDup items.*1 ->
  (forall key option e,
     (key, option) ∈ items -> get "mysql" option = Raise e ->
     MygrateConfig.missing e = true) ->
  forall ret, exists ret',
    ConnectionInfo.collect get items ret = Ok ret' /\
    (forall key option, (key, option) ∈ items ->
       ret' !! key =
       match get "mysql" option with
       | Ok v => Some v
       | Raise _ => ret !! key
       end) /\
    (forall key, key ∉ items.*1 -> ret' !! key = ret !! key).
Proof.
  induction items as [|[key option] rest IH]; intros Hnd Hmissing ret.
  - exists ret. split_and!; [done| |done]. by intros key option ?%elem_of_nil.
  - apply NoDup_cons in Hnd as [Hfresh Hnd]. simpl.
    assert (Hrest : forall key option e,
              (key, option) ∈ rest -> get "mysql" option = Raise e ->
              MygrateConfig.missing e = true).
    { intros k o e Hko. apply (Hmissing k). by right. }
    destruct (get "mysql" option) as [v|e] eqn:Eg.
    + destruct (IH Hnd Hrest (<[key := v]> ret)) as (ret' & Hc & Hin & Hout).
      exists ret'. split_and!; [done| |].
      * intros k o [[= -> ->]|Hko]%elem_of_cons.
        -- rewrite Eg, (Hout key Hfresh). apply lookup_insert_eq.
        -- rewrite (Hin k o Hko).
           destruct (get "mysql" o); [done|].
           apply lookup_insert_ne. intros <-. apply Hfresh.
           apply list_elem_of_fmap. by exists (key, o).
      * intros k [Hne Hk]%not_elem_of_cons. rewrite (Hout k Hk).
        by apply lookup_insert_ne.
    + rewrite (Hmissing key option e (list_elem_of_here _ _) Eg).
      destruct (IH Hnd Hrest ret) as (ret' & Hc & Hin & Hout).
      exists ret'. split_and!; [done| |].
      * intros k o [[= -> ->]|Hko]%elem_of_cons.
        -- rewrite Eg. by apply Hout.
        -- by apply Hin.
      * intros k [Hne Hk]%not_elem_of_cons. by apply Hout.
Qed.

Lemma collect_raises (items : list (string * string)) :
  forall (ret : gmap string string) (key option : string) (e : PyExc),
    (key, option) ∈ items -> get "mysql" option = Raise e ->
    MygrateConfig.missing e = false ->
    exists key' option' e',
      (key', option') ∈ items /\ get "mysql" option' = Raise e' /\
      MygrateConfig.missing e' = false /\
      ConnectionInfo.collect get items ret = Raise e'.
Proof.
  induction items as [|[k o] rest IH]; intros ret key option e Hin Hg He.
  - by apply elem_of_nil in Hin.
  - simpl. destruct (get "mysql" o) as [v|e0] eqn:Eg.
    + apply elem_of_cons in Hin as [[= -> ->]|Hin]; [congruence|].
      destruct (IH (<[k := v]> ret) key option e Hin Hg He)
        as (k' & o' & e' & Hin' & Hg' & He' & Hc).
      exists k', o', e'. split_and!; [by right|done..].
    + destruct (MygrateConfig.missing e0) eqn:Em.
      * apply elem_of_cons in Hin as [[= -> ->]|Hin]; [congruence|].
        destruct (IH ret key option e Hin Hg He)
          as (k' & o' & e' & Hin' & Hg' & He' & Hc).
        exists k', o', e'. split_and!; [by right|done..].
      * exists k, o, e0. split_and!; [by left|done..].
Qed.

(** X21. In whatever order the dictionary of the five keywords is gone
    through, [get_mysql_connection_info] returns the options of the
    section [mysql] that [parser.get] finds among [host], [port], [user],
    [password] and [unix_socket], each under its own name except
    [password], which goes under [passwd], the options for which
    [parser.get] raises [NoSectionError] or [NoOptionError] being left out
    and nothing else being returned; this when [parser.get] raises no
    other exception for the five.  When it raises another exception for one
    of them, an error of the interpolation for instance,
    [get_mysql_connection_info] raises such an exception of
    [parser.get]. *)
Theorem connection_info_keywords (items : list (string * string)) :
  items ≡ₚ ConnectionInfo.mapping ->
  let ret := ConnectionInfo.get_mysql_connection_info get items in
  ((forall key option e,
      (key, option) ∈ ConnectionInfo.mapping ->
      get "mysql" option = Raise e -> MygrateConfig.missing e = true) ->
   exists info,
     ret = Ok info /\
     (forall key option, (key, option) ∈ ConnectionInfo.mapping ->
        info !! key =
        match get "mysql" option with
        | Ok v => Some v
        | Raise _ => None
        end) /\
     (forall key, key ∉ ConnectionInfo.mapping.*1 -> info !! key = None))
  /\ (forall key option e,
        (key, option) ∈ ConnectionInfo.mapping ->
        get "mysql" option = Raise e -> MygrateConfig.missing e = false ->
        exists key' option' e',
          (key', option') ∈ ConnectionInfo.mapping /\
          get "mysql" option' = Raise e' /\
          MygrateConfig.missing e' = false /\
          ret = Raise e').
Proof.
  intros Hperm ret. subst ret. unfold ConnectionInfo.get_mysql_connection_info.
  assert (Hnd : NoDup items.*1).
  { rewrite Hperm. unfold ConnectionInfo.mapping. simpl.
    repeat (apply NoDup_cons; split; [set_solver|]). apply NoDup_nil_2. }
  split.
  - intros Hmissing.
    destruct (collect_lookup items Hnd) with (ret := ∅ : gmap string string)
      as (info & Hc & Hin & Hout).
    { intros key option e Hko. apply (Hmissing key). by rewrite <- Hperm. }
    exists info. split_and!; [done| |].
    + intros key option Hko. rewrite <- Hperm in Hko.
      rewrite (Hin key option Hko). by destruct (get "mysql" option).
    + intros key Hk. rewrite <- Hperm in Hk. by rewrite (Hout key Hk).
  - intros key option e Hko Hg He. rewrite <- Hperm in Hko.
    destruct (collect_raises items ∅ key option e Hko Hg He)
      as (k' & o' & e' & Hin' & Hg' & He' & Hc).
    exists k', o', e'. split_and!; [by rewrite <- Hperm|done..].
Qed.

End ConnectionFacts.

Example connection_info_password :
  ConnectionInfo.get_mysql_connection_info
    (MygrateConfig.get
       {[ "mysql" := {[ "user" := "mygrate"; "password" := "secret" ]} ]})
    ConnectionInfo.mapping =
  Ok {[ "user" := "mygrate"; "passwd" := "secret" ]}.
Proof. vm_compute. reflexivity. Qed.

(** A value that the parser cannot interpolate: the exception of
    [parser.get] leaves [get_mysql_connection_info]. *)
Example connection_info_interpolation :
  ConnectionInfo.get_mysql_connection_info
    (fun section option =>
       if decide (option = "password")
       then Raise (OtherException "InterpolationSyntaxError")
       else Raise NoOptionError)
    ConnectionInfo.mapping =
  Raise (OtherException "InterpolationSyntaxError").
Proof. vm_compute. reflexivity. Qed.

Lemma registered_tables_witness :
  "db1.t1" ∈ MygrateCallbacks.get_registered_tables Scenario.registry.
Proof.
  apply (proj1 (registered_tables Scenario.registry "db1.t1" "INSERT"
                  (Scenario.logging "insert"))).
  eexists. reflexivity.
Defined.

Lemma connection_info_keywords_witness :
  exists info,
    ConnectionInfo.get_mysql_connection_info
      (MygrateConfig.get
         {[ "mysql" := {[ "user" := "mygrate"; "password" := "secret" ]} ]})
      ConnectionInfo.mapping = Ok info /\
    info !! "passwd" = Some "secret" /\ info !! "password" = None.
Proof.
  destruct (connection_info_keywords
              (MygrateConfig.get
                 {[ "mysql" :=
                      {[ "user" := "mygrate"; "password" := "secret" ]} ]})
              ConnectionInfo.mapping (reflexivity _)) as [Hreturns _].
  destruct Hreturns as (info & Hc & Hin & Hout).
  { intros key option e _. apply get_raises_missing. }
  exists info. split_and!; [done| |].
  - rewrite (Hin "passwd" "password"); [reflexivity|].
    unfold ConnectionInfo.mapping. repeat constructor.
  - apply Hout. cbv. intros Hin'.
    repeat (apply elem_of_cons in Hin' as [?|Hin']; [discriminate|]).
    by apply elem_of_nil in Hin'.
Defined.
